(** * The periodic control interrupt of the hoverboard FOC firmware

    A shallow embedding of [Src/bldc.c]: the helpers [clamp_module_max] and
    [calc_encoder_ticks], and the handler [DMA1_Channel1_IRQHandler] that
    runs once per ADC/DMA period.

    C integers are [Z] with the conversions written out at every assignment
    to a narrower type.  The handler's variables are a record of state that
    is threaded through the handler by a small monad with early return. *)

From Stdlib Require Import ZArith List Bool Lia.
Import ListNotations.
Local Open Scope Z_scope.

(** ** Machine integers *)

Module CInt.

(** Conversion to an unsigned type of 8, 16 or 32 bits. *)
Definition to_uint8 (z : Z) : Z := z mod 256.
Definition to_uint16 (z : Z) : Z := z mod 65536.
Definition to_uint32 (z : Z) : Z := z mod 4294967296.

(** Conversion to a signed type (two's complement, as on the Cortex-M3). *)
Definition to_int8 (z : Z) : Z := (z + 128) mod 256 - 128.
Definition to_int16 (z : Z) : Z := (z + 32768) mod 65536 - 32768.
Definition to_int32 (z : Z) : Z := (z + 2147483648) mod 4294967296 - 2147483648.

(** [!x] *)
Definition logical_not (z : Z) : Z := if z =? 0 then 1 else 0.

(** [a && b] on integers used as truth values. *)
Definition logical_and (a b : Z) : Z :=
  if a =? 0 then 0 else if b =? 0 then 0 else 1.

(** [t[i]] for an array of integers; the handler only indexes inside the
    array (see [hall_code_range] and [clamp_module_max_range]). *)
Definition index (t : list Z) (i : Z) : Z := nth (Z.to_nat i) t 0.

End CInt.
Import CInt.

(** ** Macros, constants and tables *)

(** Modelled from the spec: the macro [ABS] of defines.h is not part of the
    sources; the interlock compares the "magnitude" of the DC-link current. *)
Definition ABS (a : Z) : Z := if a <? 0 then - a else a.

(** Modelled from the spec: the macro [CLAMP] of defines.h is not part of the
    sources; a duty is "clamped into the inclusive window
    [[margin, resolution - margin]]". *)
Definition CLAMP (x low high : Z) : Z :=
  if x >? high then high else if x <? low then low else x.

(** Modelled from the spec: [TIM_BDTR_MOE], the "master output-enable bit" of
    a timer's break and dead-time register, comes from the device header,
    which is not part of the sources; it is bit 15 of the 32-bit register. *)
Definition TIM_BDTR_MOE : Z := Z.shiftl 1 15.

(** Modelled from the spec: [PWM_FREQ] is set in config.h, which is not part
    of the sources; the comment on [pwm_res] in bldc.c gives the quotient,
    2000, which is a PWM frequency of 16 kHz. *)
Definition PWM_FREQ : Z := 16000.

Definition pwm_res : Z := to_uint16 (64000000 ÷ 2 ÷ PWM_FREQ).

Definition enc_vals_table : list Z := [0; -1; -2; 0; 2; 1].

(** Modelled from the spec: the table [rtConstP.vec_hallToPos_Value] belongs
    to the generated controller data, which is not part of the sources; its
    eight entries are those of the comment beside its use in bldc.c, and the
    spec's "canonical position code (0-5, or 0 for invalid codes 0 and 7)". *)
Definition vec_hallToPos_Value : list Z := [0; 2; 0; 1; 4; 3; 5; 0].

(** ** The odometry helpers *)

Definition clamp_module_max (value max : Z) : Z :=
  let value := to_int16 value in          (* int16_t value *)
  let max := to_uint16 max in             (* uint16_t max *)
  to_uint16 (Z.rem (Z.rem value max + max) max).

Definition calc_encoder_ticks (enc_val_previous enc_val_current : Z) : Z :=
  let enc_val_previous := to_uint8 enc_val_previous in
  let enc_val_current := to_uint8 enc_val_current in
  to_int8 (index enc_vals_table
             (clamp_module_max (enc_val_previous - enc_val_current) 6)).

(** The raw 3-bit code [(hall_u << 2) + (hall_v << 1) + hall_w]. *)
Definition hall_code (hall_u hall_v hall_w : Z) : Z :=
  to_uint8 (Z.shiftl hall_u 2 + Z.shiftl hall_v 1 + hall_w).

(** The canonical position code of a raw code. *)
Definition hall_position (encoder : Z) : Z :=
  to_uint8 (index vec_hallToPos_Value encoder).

(** ** Data model *)

(** One snapshot of the ADC buffer the DMA fills before the interrupt. *)
Record adc_buf_t : Type := {
  rlA : Z; rlB : Z; rrB : Z; rrC : Z; dcl : Z; dcr : Z; batt1 : Z
}.

(** Inputs and outputs of the generated controller, as far as the handler
    touches them. *)
Record ExtU : Type := {
  b_motEna : Z;
  z_ctrlModReq : Z;
  r_inpTgt : Z;
  b_hallA : Z; b_hallB : Z; b_hallC : Z;
  i_phaAB : Z; i_phaBC : Z; i_DCLink : Z;
  a_mechAngle : Z
}.

Record ExtY : Type := {
  DC_phaA : Z; DC_phaB : Z; DC_phaC : Z;
  z_errCode : Z;
  n_mot : Z;
  a_elecAngle : Z
}.

(** The external control algorithm: its parameter block, its block states
    and its one-step advance, which reads the inputs and rewrites the
    outputs and the states. *)
Class Controller : Type := {
  P : Type;
  DW : Type;
  z_ctrlTypSel : P -> Z;
  BLDC_controller_step : P -> ExtU -> DW -> ExtY -> DW * ExtY
}.

(** Build-time configuration taken from config.h, defines.h and util.c. *)
Record Config : Type := {
  MOTOR_LEFT_ENA : bool;
  MOTOR_RIGHT_ENA : bool;
  I_DC_MAX : Z;
  A2BIT_CONV : Z;
  FOC_CTRL : Z;
  BAT_CELLS : Z;
  BAT_CALIB_ADC : Z;
  BAT_CALIB_REAL_VOLTAGE : Z;
  BAT_FILT_COEF : Z;
  (** [filtLowPass32 u coef y] is the new value of [*y]. *)
  filtLowPass32 : Z -> Z -> Z -> Z
}.

Inductive motor_side : Type := Left | Right.
Inductive phase : Type := PhaseU | PhaseV | PhaseW.

(** What the handler does to the hardware and to the controller, in the
    order in which it does it. *)
Inductive event : Type :=
| Ev_IFCR                                     (* the write to DMA1->IFCR *)
| Ev_BDTR (m : motor_side) (v : Z)            (* a write to TIMx->BDTR *)
| Ev_CCR (m : motor_side) (ph : phase) (v : Z)  (* a write to a compare register *)
| Ev_step (m : motor_side)                    (* a call of BLDC_controller_step *)
| Ev_buzzer (level : bool).                   (* a write to the buzzer pin *)

Definition is_interlock (e : event) : bool :=
  match e with Ev_BDTR _ _ => true | _ => false end.

Definition is_actuation (e : event) : bool :=
  match e with Ev_CCR _ _ _ | Ev_step _ => true | _ => false end.

Definition is_buzzer (e : event) : bool :=
  match e with Ev_buzzer _ => true | _ => false end.

Record calibration : Type := {
  offsetcount : Z;
  offsetrlA : Z; offsetrlB : Z; offsetrrB : Z; offsetrrC : Z;
  offsetdcl : Z; offsetdcr : Z
}.

Record battery : Type := { batVoltage : Z; batVoltageFixdt : Z }.

Record currents : Type := {
  curL_phaA : Z; curL_phaB : Z; curL_DC : Z;
  curR_phaB : Z; curR_phaC : Z; curR_DC : Z
}.

(** The registers of one motor timer that the handler writes. *)
Record TIM_TypeDef : Type := { BDTR : Z; TIM_U : Z; TIM_V : Z; TIM_W : Z }.

Record buzzer : Type := {
  buzzerTimer : Z;
  buzzerPrev : Z;
  buzzerIdx : Z;
  BUZZER_PIN : bool
}.

Record odometry : Type := {
  wheel_left_ticks : Z;
  wheel_right_ticks : Z;
  enc_val_previous_left : Z;
  enc_val_previous_right : Z
}.

Section Handler.

Context `{ctl : Controller} (cfg : Config).

(** The controller instance of one motor: [rtU_x], [rtY_x], [rtDW_x]. *)
Record motor : Type := { rtU : ExtU; rtY : ExtY; rtDW : DW }.

(** Everything the handler writes. *)
Record state : Type := {
  cal : calibration;
  bat : battery;
  cur : currents;
  LEFT_TIM : TIM_TypeDef;
  RIGHT_TIM : TIM_TypeDef;
  buz : buzzer;
  pwm_margin : Z;
  OverrunFlag : bool;
  enableFin : Z;
  rt_Left : motor;
  rt_Right : motor;
  odo : odometry;
  trace : list event
}.

(** Everything the handler only reads: the ADC buffer, the hall pins (each
    field is the masked read [PORT->IDR & PIN]), and the variables written
    by the main loop. *)
Record env : Type := {
  adc_buffer : adc_buf_t;
  left_hall_u : Z; left_hall_v : Z; left_hall_w : Z;
  right_hall_u : Z; right_hall_v : Z; right_hall_w : Z;
  enable : Z;
  pwml : Z;
  pwmr : Z;
  ctrlModReq : Z;
  buzzerFreq : Z;
  buzzerPattern : Z;
  buzzerCount : Z;
  rtP_Left : P;
  rtP_Right : P
}.

Definition curDC_max : Z := to_int16 (I_DC_MAX cfg * A2BIT_CONV cfg).

(** *** Field updates *)

Definition set_cal (c : calibration) (s : state) : state :=
  {| cal := c; bat := bat s; cur := cur s; LEFT_TIM := LEFT_TIM s;
     RIGHT_TIM := RIGHT_TIM s; buz := buz s; pwm_margin := pwm_margin s;
     OverrunFlag := OverrunFlag s; enableFin := enableFin s;
     rt_Left := rt_Left s; rt_Right := rt_Right s; odo := odo s;
     trace := trace s |}.

Definition set_bat (b : battery) (s : state) : state :=
  {| cal := cal s; bat := b; cur := cur s; LEFT_TIM := LEFT_TIM s;
     RIGHT_TIM := RIGHT_TIM s; buz := buz s; pwm_margin := pwm_margin s;
     OverrunFlag := OverrunFlag s; enableFin := enableFin s;
     rt_Left := rt_Left s; rt_Right := rt_Right s; odo := odo s;
     trace := trace s |}.

Definition set_cur (c : currents) (s : state) : state :=
  {| cal := cal s; bat := bat s; cur := c; LEFT_TIM := LEFT_TIM s;
     RIGHT_TIM := RIGHT_TIM s; buz := buz s; pwm_margin := pwm_margin s;
     OverrunFlag := OverrunFlag s; enableFin := enableFin s;
     rt_Left := rt_Left s; rt_Right := rt_Right s; odo := odo s;
     trace := trace s |}.

Definition set_buz (b : buzzer) (s : state) : state :=
  {| cal := cal s; bat := bat s; cur := cur s; LEFT_TIM := LEFT_TIM s;
     RIGHT_TIM := RIGHT_TIM s; buz := b; pwm_margin := pwm_margin s;
     OverrunFlag := OverrunFlag s; enableFin := enableFin s;
     rt_Left := rt_Left s; rt_Right := rt_Right s; odo := odo s;
     trace := trace s |}.

Definition set_pwm_margin (m : Z) (s : state) : state :=
  {| cal := cal s; bat := bat s; cur := cur s; LEFT_TIM := LEFT_TIM s;
     RIGHT_TIM := RIGHT_TIM s; buz := buz s; pwm_margin := m;
     OverrunFlag := OverrunFlag s; enableFin := enableFin s;
     rt_Left := rt_Left s; rt_Right := rt_Right s; odo := odo s;
     trace := trace s |}.

Definition set_OverrunFlag (b : bool) (s : state) : state :=
  {| cal := cal s; bat := bat s; cur := cur s; LEFT_TIM := LEFT_TIM s;
     RIGHT_TIM := RIGHT_TIM s; buz := buz s; pwm_margin := pwm_margin s;
     OverrunFlag := b; enableFin := enableFin s;
     rt_Left := rt_Left s; rt_Right := rt_Right s; odo := odo s;
     trace := trace s |}.

Definition set_enableFin (v : Z) (s : state) : state :=
  {| cal := cal s; bat := bat s; cur := cur s; LEFT_TIM := LEFT_TIM s;
     RIGHT_TIM := RIGHT_TIM s; buz := buz s; pwm_margin := pwm_margin s;
     OverrunFlag := OverrunFlag s; enableFin := v;
     rt_Left := rt_Left s; rt_Right := rt_Right s; odo := odo s;
     trace := trace s |}.

Definition set_rt (m : motor_side) (x : motor) (s : state) : state :=
  {| cal := cal s; bat := bat s; cur := cur s; LEFT_TIM := LEFT_TIM s;
     RIGHT_TIM := RIGHT_TIM s; buz := buz s; pwm_margin := pwm_margin s;
     OverrunFlag := OverrunFlag s; enableFin := enableFin s;
     rt_Left := match m with Left => x | Right => rt_Left s end;
     rt_Right := match m with Left => rt_Right s | Right => x end;
     odo := odo s; trace := trace s |}.

Definition set_odo (o : odometry) (s : state) : state :=
  {| cal := cal s; bat := bat s; cur := cur s; LEFT_TIM := LEFT_TIM s;
     RIGHT_TIM := RIGHT_TIM s; buz := buz s; pwm_margin := pwm_margin s;
     OverrunFlag := OverrunFlag s; enableFin := enableFin s;
     rt_Left := rt_Left s; rt_Right := rt_Right s; odo := o;
     trace := trace s |}.

Definition emit (e : event) (s : state) : state :=
  {| cal := cal s; bat := bat s; cur := cur s; LEFT_TIM := LEFT_TIM s;
     RIGHT_TIM := RIGHT_TIM s; buz := buz s; pwm_margin := pwm_margin s;
     OverrunFlag := OverrunFlag s; enableFin := enableFin s;
     rt_Left := rt_Left s; rt_Right := rt_Right s; odo := odo s;
     trace := trace s ++ [e] |}.

Definition set_TIM (m : motor_side) (t : TIM_TypeDef) (s : state) : state :=
  {| cal := cal s; bat := bat s; cur := cur s;
     LEFT_TIM := match m with Left => t | Right => LEFT_TIM s end;
     RIGHT_TIM := match m with Left => RIGHT_TIM s | Right => t end;
     buz := buz s; pwm_margin := pwm_margin s;
     OverrunFlag := OverrunFlag s; enableFin := enableFin s;
     rt_Left := rt_Left s; rt_Right := rt_Right s; odo := odo s;
     trace := trace s |}.

Definition TIM (m : motor_side) (s : state) : TIM_TypeDef :=
  match m with Left => LEFT_TIM s | Right => RIGHT_TIM s end.

Definition rt (m : motor_side) (s : state) : motor :=
  match m with Left => rt_Left s | Right => rt_Right s end.

(** *** Register writes; every write is recorded in the trace *)

Definition write_BDTR (m : motor_side) (v : Z) (s : state) : state :=
  let t := TIM m s in
  emit (Ev_BDTR m v)
    (set_TIM m {| BDTR := v; TIM_U := TIM_U t; TIM_V := TIM_V t;
                  TIM_W := TIM_W t |} s).

Definition write_CCR (m : motor_side) (ph : phase) (v : Z) (s : state)
  : state :=
  let t := TIM m s in
  emit (Ev_CCR m ph v)
    (set_TIM m
       {| BDTR := BDTR t;
          TIM_U := match ph with PhaseU => v | _ => TIM_U t end;
          TIM_V := match ph with PhaseV => v | _ => TIM_V t end;
          TIM_W := match ph with PhaseW => v | _ => TIM_W t end |} s).

Definition write_buzzer_pin (level : bool) (s : state) : state :=
  let b := buz s in
  emit (Ev_buzzer level)
    (set_buz {| buzzerTimer := buzzerTimer b; buzzerPrev := buzzerPrev b;
                buzzerIdx := buzzerIdx b; BUZZER_PIN := level |} s).


(** The master output-enable bit of a timer: is the power stage armed? *)
Definition MOE_set (t : TIM_TypeDef) : bool := Z.testbit (BDTR t) 15.

(** *** Control flow: a statement falls through or returns from the handler *)

Inductive outcome (A : Type) : Type :=
| Continue (a : A) (s : state)
| Return (s : state).
Arguments Continue {A} a s.
Arguments Return {A} s.

Definition proc (A : Type) : Type := state -> outcome A.

Definition ret {A : Type} (a : A) : proc A := fun s => Continue a s.

Definition bind {A B : Type} (p : proc A) (k : A -> proc B) : proc B :=
  fun s => match p s with
           | Continue a s' => k a s'
           | Return s' => Return s'
           end.

(** [return;] *)
Definition return_ {A : Type} : proc A := fun s => Return s.

Definition get : proc state := fun s => Continue s s.

Definition modify (f : state -> state) : proc unit :=
  fun s => Continue tt (f s).

Definition when (c : bool) (p : proc unit) : proc unit :=
  if c then p else ret tt.

(** The state in which a call of the procedure leaves the machine. *)
Definition call (p : proc unit) (s : state) : state :=
  match p s with Continue _ s' => s' | Return s' => s' end.

Notation "x <- p ;; k" := (bind p (fun x => k))
  (at level 61, p at next level, right associativity).
Notation "p ;; k" := (bind p (fun _ => k))
  (at level 61, right associativity).

(** *** Per-motor names *)

Definition cur_DC (m : motor_side) (s : state) : Z :=
  match m with Left => curL_DC (cur s) | Right => curR_DC (cur s) end.

(** [curL_phaA] and [curL_phaB], or [curR_phaB] and [curR_phaC]. *)
Definition cur_phaAB (m : motor_side) (s : state) : Z :=
  match m with Left => curL_phaA (cur s) | Right => curR_phaB (cur s) end.

Definition cur_phaBC (m : motor_side) (s : state) : Z :=
  match m with Left => curL_phaB (cur s) | Right => curR_phaC (cur s) end.

Definition hall_u_pin (m : motor_side) (e : env) : Z :=
  match m with Left => left_hall_u e | Right => right_hall_u e end.

Definition hall_v_pin (m : motor_side) (e : env) : Z :=
  match m with Left => left_hall_v e | Right => right_hall_v e end.

Definition hall_w_pin (m : motor_side) (e : env) : Z :=
  match m with Left => left_hall_w e | Right => right_hall_w e end.

(** [pwml] or [pwmr]. *)
Definition pwm (m : motor_side) (e : env) : Z :=
  match m with Left => pwml e | Right => pwmr e end.

(** The parameter block behind [rtM_Left] or [rtM_Right]. *)
Definition rtP (m : motor_side) (e : env) : P :=
  match m with Left => rtP_Left e | Right => rtP_Right e end.

Definition MOTOR_ENA (m : motor_side) : bool :=
  match m with Left => MOTOR_LEFT_ENA cfg | Right => MOTOR_RIGHT_ENA cfg end.

Definition wheel_ticks (m : motor_side) (s : state) : Z :=
  match m with
  | Left => wheel_left_ticks (odo s)
  | Right => wheel_right_ticks (odo s)
  end.

Definition enc_val_previous (m : motor_side) (s : state) : Z :=
  match m with
  | Left => enc_val_previous_left (odo s)
  | Right => enc_val_previous_right (odo s)
  end.

(** *** The sections of the handler *)

(** Lines 110-116: one calibration sample. *)
Definition calibrate_offsets (e : env) (s : state) : state :=
  let c := cal s in
  let a := adc_buffer e in
  set_cal
    {| offsetcount := to_uint16 (offsetcount c + 1);
       offsetrlA := to_int16 ((rlA a + offsetrlA c) ÷ 2);
       offsetrlB := to_int16 ((rlB a + offsetrlB c) ÷ 2);
       offsetrrB := to_int16 ((rrB a + offsetrrB c) ÷ 2);
       offsetrrC := to_int16 ((rrC a + offsetrrC c) ÷ 2);
       offsetdcl := to_int16 ((dcl a + offsetdcl c) ÷ 2);
       offsetdcr := to_int16 ((dcr a + offsetdcr c) ÷ 2) |} s.

(** Lines 121-122. *)
Definition filter_battery (e : env) (s : state) : state :=
  let y := filtLowPass32 cfg (batt1 (adc_buffer e)) (BAT_FILT_COEF cfg)
             (batVoltageFixdt (bat s)) in
  set_bat {| batVoltage := to_int16 (Z.shiftr y 16);
             batVoltageFixdt := y |} s.

(** Lines 126-133. *)
Definition acquire_currents (e : env) (s : state) : state :=
  let c := cal s in
  let a := adc_buffer e in
  set_cur
    {| curL_phaA := to_int16 (offsetrlA c - rlA a);
       curL_phaB := to_int16 (offsetrlB c - rlB a);
       curL_DC := to_int16 (offsetdcl c - dcl a);
       curR_phaB := to_int16 (offsetrrB c - rrB a);
       curR_phaC := to_int16 (offsetrrC c - rrC a);
       curR_DC := to_int16 (offsetdcr c - dcr a) |} s.

(** Lines 137-141 for the left motor, 143-147 for the right one. *)
Definition interlock (m : motor_side) (e : env) : proc unit :=
  s <- get ;;
  if (ABS (cur_DC m s) >? curDC_max) || (enable e =? 0)
  then (* TIMx->BDTR &= ~TIM_BDTR_MOE *)
    modify (write_BDTR m
              (Z.land (BDTR (TIM m s)) (Z.lxor TIM_BDTR_MOE 4294967295)))
  else (* TIMx->BDTR |= TIM_BDTR_MOE *)
    modify (write_BDTR m (Z.lor (BDTR (TIM m s)) TIM_BDTR_MOE)).

Definition set_buzzerTimer (v : Z) (s : state) : state :=
  let b := buz s in
  set_buz {| buzzerTimer := v; buzzerPrev := buzzerPrev b;
             buzzerIdx := buzzerIdx b; BUZZER_PIN := BUZZER_PIN b |} s.

Definition set_buzzerPrev (v : Z) (s : state) : state :=
  let b := buz s in
  set_buz {| buzzerTimer := buzzerTimer b; buzzerPrev := v;
             buzzerIdx := buzzerIdx b; BUZZER_PIN := BUZZER_PIN b |} s.

Definition set_buzzerIdx (v : Z) (s : state) : state :=
  let b := buz s in
  set_buz {| buzzerTimer := buzzerTimer b; buzzerPrev := buzzerPrev b;
             buzzerIdx := v; BUZZER_PIN := BUZZER_PIN b |} s.

(** [HAL_GPIO_TogglePin(BUZZER_PORT, BUZZER_PIN)] *)
Definition toggle_buzzer_pin (s : state) : state :=
  write_buzzer_pin (negb (BUZZER_PIN (buz s))) s.

(** Lines 150-164: the square wave for the buzzer.  [buzzerTimer] is
    unsigned, so are the divisions and remainders it takes part in. *)
Definition buzzer_step (e : env) : proc unit :=
  s <- get ;;
  modify (set_buzzerTimer (to_uint32 (buzzerTimer (buz s) + 1))) ;;
  s <- get ;;
  if negb (buzzerFreq e =? 0)
     && ((buzzerTimer (buz s) / 5000) mod to_uint32 (buzzerPattern e + 1) =? 0)
  then
    when (buzzerPrev (buz s) =? 0)
      (modify (set_buzzerPrev 1) ;;
       modify (set_buzzerIdx (to_uint8 (buzzerIdx (buz s) + 1))) ;;
       s <- get ;;
       when (buzzerIdx (buz s) >? buzzerCount e + 2)
         (modify (set_buzzerIdx 1))) ;;
    s <- get ;;
    when ((buzzerTimer (buz s) mod to_uint32 (buzzerFreq e) =? 0)
          && ((buzzerIdx (buz s) <=? buzzerCount e) || (buzzerCount e =? 0)))
      (modify toggle_buzzer_pin)
  else
    when (negb (buzzerPrev (buz s) =? 0))
      (modify (write_buzzer_pin false) ;;
       modify (set_buzzerPrev 0)).

(** Lines 167-171. *)
Definition adjust_pwm_margin (e : env) : proc unit :=
  if z_ctrlTypSel (rtP_Left e) =? FOC_CTRL cfg
  then modify (set_pwm_margin 110)
  else modify (set_pwm_margin 0).

(** [BLDC_controller_step(rtM_x)] *)
Definition step_controller (m : motor_side) (e : env) (s : state) : state :=
  let x := rt m s in
  let r := BLDC_controller_step (rtP m e) (rtU x) (rtDW x) (rtY x) in
  emit (Ev_step m)
    (set_rt m {| rtU := rtU x; rtY := snd r; rtDW := fst r |} s).

(** Lines 222-226 for the left motor, 268-272 for the right one, which
    subtracts the ticks. *)
Definition update_odometry (m : motor_side) (encoder : Z) (s : state)
  : state :=
  let o := odo s in
  match m with
  | Left =>
      set_odo
        {| wheel_left_ticks :=
             clamp_module_max
               (wheel_left_ticks o
                + calc_encoder_ticks (enc_val_previous_left o) encoder)
               9000;
           wheel_right_ticks := wheel_right_ticks o;
           enc_val_previous_left := encoder;
           enc_val_previous_right := enc_val_previous_right o |} s
  | Right =>
      set_odo
        {| wheel_left_ticks := wheel_left_ticks o;
           wheel_right_ticks :=
             clamp_module_max
               (wheel_right_ticks o
                - calc_encoder_ticks (enc_val_previous_right o) encoder)
               9000;
           enc_val_previous_left := enc_val_previous_left o;
           enc_val_previous_right := encoder |} s
  end.

(** The canonical code of the hall pins of a motor as sampled on this tick,
    [encoder_left] or [encoder_right]. *)
Definition encoder (m : motor_side) (e : env) : Z :=
  hall_position
    (hall_code (logical_not (hall_u_pin m e)) (logical_not (hall_v_pin m e))
       (logical_not (hall_w_pin m e))).

(** The duty written to a compare register for the raw duty [d]. *)
Definition duty (d : Z) (s : state) : Z :=
  to_uint16 (CLAMP (d + pwm_res ÷ 2) (pwm_margin s)
               (pwm_res - pwm_margin s)).

(** Lines 189-231 for the left motor, 236-277 for the right one. *)
Definition motor_control (m : motor_side) (e : env) : proc unit :=
  (* Get hall sensors values *)
  let hall_u := logical_not (hall_u_pin m e) in
  let hall_v := logical_not (hall_v_pin m e) in
  let hall_w := logical_not (hall_w_pin m e) in
  (* Set motor inputs here *)
  s <- get ;;
  modify (set_rt m
            {| rtU := {| b_motEna := enableFin s;
                         z_ctrlModReq := to_uint8 (ctrlModReq e);
                         r_inpTgt := to_int16 (pwm m e);
                         b_hallA := hall_u;
                         b_hallB := hall_v;
                         b_hallC := hall_w;
                         i_phaAB := cur_phaAB m s;
                         i_phaBC := cur_phaBC m s;
                         i_DCLink := cur_DC m s;
                         a_mechAngle := a_mechAngle (rtU (rt m s)) |};
               rtY := rtY (rt m s);
               rtDW := rtDW (rt m s) |}) ;;
  (* Step the controller *)
  when (MOTOR_ENA m) (modify (step_controller m e)) ;;
  (* Get motor outputs here *)
  s <- get ;;
  let u := DC_phaA (rtY (rt m s)) in
  let v := DC_phaB (rtY (rt m s)) in
  let w := DC_phaC (rtY (rt m s)) in
  (* Calc encoder value and find code for hall sensor in table *)
  modify (update_odometry m (encoder m e)) ;;
  (* Apply commands *)
  modify (write_CCR m PhaseU (duty u s)) ;;
  modify (write_CCR m PhaseV (duty v s)) ;;
  modify (write_CCR m PhaseW (duty w s)).

(** *** The handler *)

(** Lines 120-171: battery filter, currents, interlock, buzzer, margin. *)
Definition housekeeping (e : env) : proc unit :=
  s <- get ;;
  when (buzzerTimer (buz s) mod 1000 =? 0)
    (modify (filter_battery e)) ;;
  modify (acquire_currents e) ;;
  interlock Left e ;;
  interlock Right e ;;
  buzzer_step e ;;
  adjust_pwm_margin e.

(** Lines 175-281: the section headed MOTOR CONTROL. *)
Definition motor_control_section (e : env) : proc unit :=
  s <- get ;;
  when (OverrunFlag s) return_ ;;      (* Check for overrun *)
  modify (set_OverrunFlag true) ;;
  (* Make sure to stop BOTH motors in case of an error *)
  modify (set_enableFin
            (logical_and
               (logical_and (enable e)
                  (logical_not (z_errCode (rtY (rt_Left s)))))
               (logical_not (z_errCode (rtY (rt_Right s)))))) ;;
  motor_control Left e ;;
  motor_control Right e ;;
  (* Indicate task complete *)
  modify (set_OverrunFlag false).

Definition DMA1_Channel1_IRQHandler_body (e : env) : proc unit :=
  modify (emit Ev_IFCR) ;;
  s <- get ;;
  when (offsetcount (cal s) <? 2000)   (* calibrate ADC offsets *)
    (modify (calibrate_offsets e) ;;
     return_) ;;
  housekeeping e ;;
  motor_control_section e.

Definition DMA1_Channel1_IRQHandler (e : env) (s : state) : state :=
  call (DMA1_Channel1_IRQHandler_body e) s.

(** The handler run once per element of a sequence of inputs. *)
Fixpoint run (s : state) (es : list env) : state :=
  match es with
  | [] => s
  | e :: es' => run (DMA1_Channel1_IRQHandler e s) es'
  end.

(** The events of one tick. *)
Definition tick_events (e : env) (s : state) : list event :=
  skipn (length (trace s)) (trace (DMA1_Channel1_IRQHandler e s)).

(** The variables as their initialisers leave them, over the reset values
    of the timers, of the buzzer pin and of the two controllers. *)
Definition initial_state (tl tr : TIM_TypeDef) (pin : bool) (ml mr : motor)
  : state :=
  let v := (400 * BAT_CELLS cfg * BAT_CALIB_ADC cfg)
           ÷ BAT_CALIB_REAL_VOLTAGE cfg in
  {| cal := {| offsetcount := 0;
               offsetrlA := 2000; offsetrlB := 2000; offsetrrB := 2000;
               offsetrrC := 2000; offsetdcl := 2000; offsetdcr := 2000 |};
     bat := {| batVoltage := to_int16 v;
               batVoltageFixdt := to_int32 (Z.shiftl v 16) |};
     cur := {| curL_phaA := 0; curL_phaB := 0; curL_DC := 0;
               curR_phaB := 0; curR_phaC := 0; curR_DC := 0 |};
     LEFT_TIM := tl;
     RIGHT_TIM := tr;
     buz := {| buzzerTimer := 0; buzzerPrev := 0; buzzerIdx := 0;
               BUZZER_PIN := pin |};
     pwm_margin := 0;
     OverrunFlag := false;
     enableFin := 0;
     rt_Left := ml;
     rt_Right := mr;
     odo := {| wheel_left_ticks := 0; wheel_right_ticks := 0;
               enc_val_previous_left := 0; enc_val_previous_right := 0 |};
     trace := [] |}.

(** *** Contracts of the two halves of a tick after calibration *)

(** The inputs the handler hands to the controller of motor [m]. *)
Definition controller_inputs (m : motor_side) (e : env) (s : state) : ExtU :=
  {| b_motEna :=
       logical_and
         (logical_and (enable e) (logical_not (z_errCode (rtY (rt_Left s)))))
         (logical_not (z_errCode (rtY (rt_Right s))));
     z_ctrlModReq := to_uint8 (ctrlModReq e);
     r_inpTgt := to_int16 (pwm m e);
     b_hallA := logical_not (hall_u_pin m e);
     b_hallB := logical_not (hall_v_pin m e);
     b_hallC := logical_not (hall_w_pin m e);
     i_phaAB := cur_phaAB m s;
     i_phaBC := cur_phaBC m s;
     i_DCLink := cur_DC m s;
     a_mechAngle := a_mechAngle (rtU (rt m s)) |}.

(** The events of the control of motor [m] that ends in state [s']. *)
Definition control_events (m : motor_side) (s' : state) : list event :=
  (if MOTOR_ENA m then [Ev_step m] else [])
  ++ [Ev_CCR m PhaseU (TIM_U (TIM m s'));
      Ev_CCR m PhaseV (TIM_V (TIM m s'));
      Ev_CCR m PhaseW (TIM_W (TIM m s'))].

(** [s1] is the state in which the lines 120-171 leave the state [s]. *)
Record housekeeping_post (e : env) (s s1 : state) : Prop := {
  hk_cal : cal s1 = cal s;
  hk_cur : cur s1 = cur (acquire_currents e s);
  hk_BDTR : forall m,
    BDTR (TIM m s1)
    = if (ABS (cur_DC m s1) >? curDC_max) || (enable e =? 0)
      then Z.land (BDTR (TIM m s)) (Z.lxor TIM_BDTR_MOE 4294967295)
      else Z.lor (BDTR (TIM m s)) TIM_BDTR_MOE;
  hk_TIM_U : forall m, TIM_U (TIM m s1) = TIM_U (TIM m s);
  hk_TIM_V : forall m, TIM_V (TIM m s1) = TIM_V (TIM m s);
  hk_TIM_W : forall m, TIM_W (TIM m s1) = TIM_W (TIM m s);
  hk_pwm_margin :
    pwm_margin s1
    = if z_ctrlTypSel (rtP_Left e) =? FOC_CTRL cfg then 110 else 0;
  hk_OverrunFlag : OverrunFlag s1 = OverrunFlag s;
  hk_enableFin : enableFin s1 = enableFin s;
  hk_rt : forall m, rt m s1 = rt m s;
  hk_odo : odo s1 = odo s;
  hk_buzzerTimer :
    buzzerTimer (buz s1) = to_uint32 (buzzerTimer (buz s) + 1);
  hk_trace : exists evs,
    trace s1
    = trace s ++ Ev_BDTR Left (BDTR (LEFT_TIM s1))
              :: Ev_BDTR Right (BDTR (RIGHT_TIM s1)) :: evs
    /\ forallb is_buzzer evs = true
}.

(** [s2] is the state in which the lines 175-281 leave the state [s1] when
    the overrun flag is clear. *)
Record control_post (e : env) (s1 s2 : state) : Prop := {
  mc_cal : cal s2 = cal s1;
  mc_bat : bat s2 = bat s1;
  mc_cur : cur s2 = cur s1;
  mc_buz : buz s2 = buz s1;
  mc_pwm_margin : pwm_margin s2 = pwm_margin s1;
  mc_OverrunFlag : OverrunFlag s2 = false;
  mc_enableFin : enableFin s2 = b_motEna (controller_inputs Left e s1);
  mc_BDTR : forall m, BDTR (TIM m s2) = BDTR (TIM m s1);
  mc_rtU : forall m, rtU (rt m s2) = controller_inputs m e s1;
  mc_step : forall m,
    (rtDW (rt m s2), rtY (rt m s2))
    = if MOTOR_ENA m
      then BLDC_controller_step (rtP m e) (controller_inputs m e s1)
             (rtDW (rt m s1)) (rtY (rt m s1))
      else (rtDW (rt m s1), rtY (rt m s1));
  mc_TIM_U : forall m,
    TIM_U (TIM m s2) = duty (DC_phaA (rtY (rt m s2))) s1;
  mc_TIM_V : forall m,
    TIM_V (TIM m s2) = duty (DC_phaB (rtY (rt m s2))) s1;
  mc_TIM_W : forall m,
    TIM_W (TIM m s2) = duty (DC_phaC (rtY (rt m s2))) s1;
  mc_wheel_left :
    wheel_left_ticks (odo s2)
    = clamp_module_max
        (wheel_left_ticks (odo s1)
         + calc_encoder_ticks (enc_val_previous_left (odo s1))
             (encoder Left e)) 9000;
  mc_wheel_right :
    wheel_right_ticks (odo s2)
    = clamp_module_max
        (wheel_right_ticks (odo s1)
         - calc_encoder_ticks (enc_val_previous_right (odo s1))
             (encoder Right e)) 9000;
  mc_enc_val_previous : forall m, enc_val_previous m s2 = encoder m e;
  mc_trace :
    trace s2 = trace s1 ++ control_events Left s2 ++ control_events Right s2
}.

End Handler.

Arguments Continue {ctl A} a s.
Arguments Return {ctl A} s.

(** ** A test double of the controller and a reference configuration *)

Module Reference.

(** A controller without block states: its parameter block is the control
    type, its duties are the target, and it reports the sum of the hall
    bits as its error code. *)
#[local] Instance scripted : Controller := {|
  P := Z;
  DW := unit;
  z_ctrlTypSel := fun p => p;
  BLDC_controller_step := fun _ u dw y =>
    (dw, {| DC_phaA := r_inpTgt u; DC_phaB := - r_inpTgt u;
            DC_phaC := 2 * r_inpTgt u;
            z_errCode := 0; n_mot := n_mot y;
            a_elecAngle := a_elecAngle y |})
|}.

(** The single-pole low-pass filter of util.c. *)
Definition low_pass (u coef y : Z) : Z :=
  let tmp := Z.shiftr ((Z.shiftl u 4 - Z.shiftr y 12) * coef) 4 in
  to_int32 (CLAMP tmp (-2147483648) 2147483647) + y.

(** The values of the stock config.h. *)
Definition config : Config := {|
  MOTOR_LEFT_ENA := true;
  MOTOR_RIGHT_ENA := true;
  I_DC_MAX := 17;
  A2BIT_CONV := 50;
  FOC_CTRL := 2;
  BAT_CELLS := 10;
  BAT_CALIB_ADC := 1492;
  BAT_CALIB_REAL_VOLTAGE := 3970;
  BAT_FILT_COEF := 655;
  filtLowPass32 := low_pass
|}.

Definition tim0 : TIM_TypeDef :=
  {| BDTR := 0; TIM_U := 0; TIM_V := 0; TIM_W := 0 |}.

Definition extu0 : ExtU :=
  {| b_motEna := 0; z_ctrlModReq := 0; r_inpTgt := 0;
     b_hallA := 0; b_hallB := 0; b_hallC := 0;
     i_phaAB := 0; i_phaBC := 0; i_DCLink := 0; a_mechAngle := 0 |}.

Definition exty0 : ExtY :=
  {| DC_phaA := 0; DC_phaB := 0; DC_phaC := 0;
     z_errCode := 0; n_mot := 0; a_elecAngle := 0 |}.

Definition motor0 : motor :=
  {| rtU := extu0; rtY := exty0; rtDW := tt |}.

(** The state at reset. *)
Definition reset : state := initial_state config tim0 tim0 false motor0 motor0.

Definition adc (batt dc_l dc_r : Z) : adc_buf_t :=
  {| rlA := 2000; rlB := 2000; rrB := 2000; rrC := 2000;
     dcl := dc_l; dcr := dc_r; batt1 := batt |}.

(** Inputs with the motors enabled, FOC selected, the buzzer silent, a
    target of 300, and the given DC-link samples and hall pins. *)
Definition inputs (dc_l dc_r : Z) (hu hv hw : Z) : env :=
  {| adc_buffer := adc 1500 dc_l dc_r;
     left_hall_u := hu; left_hall_v := hv; left_hall_w := hw;
     right_hall_u := hu; right_hall_v := hv; right_hall_w := hw;
     enable := 1; pwml := 300; pwmr := 300; ctrlModReq := 1;
     buzzerFreq := 0; buzzerPattern := 0; buzzerCount := 0;
     rtP_Left := 2; rtP_Right := 2 |}.

(** A state after calibration, with the given overrun flag, previous
    hall codes and tick counters. *)
Definition calibrated (overrun : bool) (prev ticks : Z) : state :=
  set_odo {| wheel_left_ticks := ticks; wheel_right_ticks := ticks;
             enc_val_previous_left := prev;
             enc_val_previous_right := prev |}
    (set_OverrunFlag overrun
       (set_cal {| offsetcount := 2000;
                   offsetrlA := 2000; offsetrlB := 2000;
                   offsetrrB := 2000; offsetrrC := 2000;
                   offsetdcl := 2000; offsetdcr := 2000 |} reset)).

(** The same state after the left controller has reported the fault
    code 1. *)
Definition faulted (overrun : bool) (prev ticks : Z) : state :=
  set_rt Left
    {| rtU := extu0;
       rtY := {| DC_phaA := 0; DC_phaB := 0; DC_phaC := 0;
                 z_errCode := 1; n_mot := 0; a_elecAngle := 0 |};
       rtDW := tt |}
    (calibrated overrun prev ticks).

(** Both DC-link samples 850 counts below the offset: the currents are
    at [curDC_max] exactly.  All hall pins high: the raw code is 0. *)
Definition at_limit : env := inputs 1150 1150 1 1 1.

(** Hall pins high, low, low: the raw code is 3, the position 1. *)
Definition position_1 : env := inputs 2000 2000 1 0 0.

(** The same inputs as [inputs 2000 2000 1 1 1] with the buzzer variables
    given. *)
Definition buzzing (freq pattern count : Z) : env :=
  {| adc_buffer := adc 1500 2000 2000;
     left_hall_u := 1; left_hall_v := 1; left_hall_w := 1;
     right_hall_u := 1; right_hall_v := 1; right_hall_w := 1;
     enable := 1; pwml := 300; pwmr := 300; ctrlModReq := 1;
     buzzerFreq := freq; buzzerPattern := pattern; buzzerCount := count;
     rtP_Left := 2; rtP_Right := 2 |}.

(** A calibrated state in which the buzzer has been sounding. *)
Definition sounding : state :=
  set_buz {| buzzerTimer := 7; buzzerPrev := 1; buzzerIdx := 1;
             BUZZER_PIN := true |} (calibrated false 0 0).

(** The reference configuration built without the left motor. *)
Definition config_right_only : Config := {|
  MOTOR_LEFT_ENA := false;
  MOTOR_RIGHT_ENA := true;
  I_DC_MAX := 17;
  A2BIT_CONV := 50;
  FOC_CTRL := 2;
  BAT_CELLS := 10;
  BAT_CALIB_ADC := 1492;
  BAT_CALIB_REAL_VOLTAGE := 3970;
  BAT_FILT_COEF := 655;
  filtLowPass32 := low_pass
|}.

End Reference.

(** ** Names shared by the six ADC channels and by the three phases *)

Inductive adc_channel : Type :=
  Ch_rlA | Ch_rlB | Ch_rrB | Ch_rrC | Ch_dcl | Ch_dcr.

(** The raw sample of a channel in the ADC buffer. *)
Definition sample (ch : adc_channel) (a : adc_buf_t) : Z :=
  match ch with
  | Ch_rlA => rlA a | Ch_rlB => rlB a | Ch_rrB => rrB a
  | Ch_rrC => rrC a | Ch_dcl => dcl a | Ch_dcr => dcr a
  end.

(** The offset of a channel. *)
Definition offset (ch : adc_channel) (c : calibration) : Z :=
  match ch with
  | Ch_rlA => offsetrlA c | Ch_rlB => offsetrlB c | Ch_rrB => offsetrrB c
  | Ch_rrC => offsetrrC c | Ch_dcl => offsetdcl c | Ch_dcr => offsetdcr c
  end.

(** The current measured on a channel. *)
Definition current (ch : adc_channel) (c : currents) : Z :=
  match ch with
  | Ch_rlA => curL_phaA c | Ch_rlB => curL_phaB c | Ch_rrB => curR_phaB c
  | Ch_rrC => curR_phaC c | Ch_dcl => curL_DC c | Ch_dcr => curR_DC c
  end.

(** The compare register of a phase. *)
Definition CCR (ph : phase) (t : TIM_TypeDef) : Z :=
  match ph with PhaseU => TIM_U t | PhaseV => TIM_V t | PhaseW => TIM_W t end.

(** The raw duty of a phase among the outputs of a controller. *)
Definition DC_pha (ph : phase) (y : ExtY) : Z :=
  match ph with
  | PhaseU => DC_phaA y | PhaseV => DC_phaB y | PhaseW => DC_phaC y
  end.

(** A write to a compare register. *)
Definition is_duty_write (e : event) : bool :=
  match e with Ev_CCR _ _ _ => true | _ => false end.

Section Derived.

Context `{ctl : Controller} (cfg : Config).

(** The events of a run of the handler over a sequence of inputs. *)
Definition run_events (s : state) (es : list env) : list event :=
  skipn (length (trace s)) (trace (run cfg s es)).

(** The lines 150-164 as a function of the buzzer variables alone: the new
    variables and the writes to the pin ([buzzer_step_next] relates it to
    [buzzer_step]). *)
Definition buzzer_next (e : env) (b : buzzer) : buzzer * list event :=
  let t := to_uint32 (buzzerTimer b + 1) in
  if negb (buzzerFreq e =? 0)
     && ((t / 5000) mod to_uint32 (buzzerPattern e + 1) =? 0)
  then
    let rising := buzzerPrev b =? 0 in
    let prev := if rising then 1 else buzzerPrev b in
    let idx :=
      if rising
      then if to_uint8 (buzzerIdx b + 1) >? buzzerCount e + 2
           then 1 else to_uint8 (buzzerIdx b + 1)
      else buzzerIdx b in
    if (t mod to_uint32 (buzzerFreq e) =? 0)
       && ((idx <=? buzzerCount e) || (buzzerCount e =? 0))
    then ({| buzzerTimer := t; buzzerPrev := prev; buzzerIdx := idx;
             BUZZER_PIN := negb (BUZZER_PIN b) |},
          [Ev_buzzer (negb (BUZZER_PIN b))])
    else ({| buzzerTimer := t; buzzerPrev := prev; buzzerIdx := idx;
             BUZZER_PIN := BUZZER_PIN b |}, [])
  else
    if negb (buzzerPrev b =? 0)
    then ({| buzzerTimer := t; buzzerPrev := 0; buzzerIdx := buzzerIdx b;
             BUZZER_PIN := false |}, [Ev_buzzer false])
    else ({| buzzerTimer := t; buzzerPrev := buzzerPrev b;
             buzzerIdx := buzzerIdx b; BUZZER_PIN := BUZZER_PIN b |}, []).

End Derived.

(** * Properties *)

(** ** Machine integers *)

Lemma to_int16_id (z : Z) : -32768 <= z <= 32767 -> to_int16 z = z.
Proof.
  intros Hz. unfold to_int16.
  rewrite Z.mod_small; lia.
Qed.

Lemma to_int8_id (z : Z) : -128 <= z <= 127 -> to_int8 z = z.
Proof.
  intros Hz. unfold to_int8.
  rewrite Z.mod_small; lia.
Qed.

Lemma to_uint8_id (z : Z) : 0 <= z <= 255 -> to_uint8 z = z.
Proof.
  intros Hz. unfold to_uint8. apply Z.mod_small; lia.
Qed.

Lemma to_uint16_id (z : Z) : 0 <= z <= 65535 -> to_uint16 z = z.
Proof.
  intros Hz. unfold to_uint16. apply Z.mod_small; lia.
Qed.

(** C's truncating remainder, taken twice around an addition of the modulus,
    is the mathematical residue. *)
Lemma rem_add_rem (v m : Z) : 0 < m -> Z.rem (Z.rem v m + m) m = v mod m.
Proof.
  intros Hm.
  assert (Hb : - m < Z.rem v m < m).
  { destruct (Z_le_gt_dec 0 v) as [Hv | Hv].
    - pose proof (Z.rem_bound_pos v m Hv Hm). lia.
    - pose proof (Z.rem_bound_pos (- v) m) as Hn.
      rewrite Z.rem_opp_l in Hn by lia. lia. }
  rewrite Z.rem_mod_nonneg by lia.
  replace (Z.rem v m + m) with (Z.rem v m + 1 * m) by lia.
  rewrite Z.mod_add by lia.
  rewrite (Z.quot_rem' v m) at 2.
  rewrite Z.add_comm, Z.mul_comm, Z.mod_add by lia.
  reflexivity.
Qed.

(** ** The odometry helpers *)

Lemma clamp_module_max_range (value max : Z) :
  0 < to_uint16 max -> 0 <= clamp_module_max value max < to_uint16 max.
Proof.
  intros Hm. unfold clamp_module_max.
  rewrite rem_add_rem by assumption.
  pose proof (Z.mod_pos_bound (to_int16 value) (to_uint16 max) Hm) as Hr.
  assert (Hu : to_uint16 max < 65536)
    by (unfold to_uint16; apply Z.mod_pos_bound; lia).
  rewrite to_uint16_id; lia.
Qed.

Lemma clamp_module_max_eq (value max : Z) :
  0 < to_uint16 max ->
  clamp_module_max value max = to_int16 value mod to_uint16 max.
Proof.
  intros Hm. unfold clamp_module_max.
  rewrite rem_add_rem by assumption.
  pose proof (Z.mod_pos_bound (to_int16 value) (to_uint16 max) Hm) as Hr.
  assert (Hu : to_uint16 max < 65536)
    by (unfold to_uint16; apply Z.mod_pos_bound; lia).
  apply to_uint16_id. lia.
Qed.

Lemma clamp_module_max_mod (value max : Z) :
  -32768 <= value <= 32767 ->
  0 < max <= 65535 ->
  clamp_module_max value max = value mod max.
Proof.
  intros Hv Hm.
  rewrite clamp_module_max_eq by (rewrite to_uint16_id; lia).
  rewrite to_int16_id, to_uint16_id by lia. reflexivity.
Qed.

(** C10: for every [int16_t] value and every positive [uint16_t] modulus,
    [clamp_module_max value max] is the mathematical residue
    [value mod max], which lies in [[0, max)], also for a negative value,
    where C's remainder alone is negative or zero. *)
Theorem clamp_module_max_residue (value max : Z) :
  -32768 <= value <= 32767 ->
  0 < max <= 65535 ->
  clamp_module_max value max = value mod max
  /\ 0 <= clamp_module_max value max < max
  /\ (value < 0 -> Z.rem value max <= 0).
Proof.
  intros Hv Hm.
  assert (Heq : clamp_module_max value max = value mod max).
  { unfold clamp_module_max.
    rewrite (to_int16_id value), (to_uint16_id max) by lia.
    rewrite rem_add_rem by lia.
    pose proof (Z.mod_pos_bound value max) as Hr.
    apply to_uint16_id. lia. }
  split; [exact Heq | split].
  - rewrite Heq. apply Z.mod_pos_bound. lia.
  - intros Hneg. apply Z.rem_nonpos; lia.
Qed.

Lemma hall_code_range (u v w : Z) :
  0 <= hall_code (logical_not u) (logical_not v) (logical_not w) <= 7.
Proof.
  unfold logical_not.
  destruct (u =? 0), (v =? 0), (w =? 0); vm_compute; split; discriminate.
Qed.

Lemma hall_position_range (r : Z) : 0 <= r <= 7 -> 0 <= hall_position r <= 5.
Proof.
  intros Hr.
  assert (Hc : r = 0 \/ r = 1 \/ r = 2 \/ r = 3 \/ r = 4 \/ r = 5 \/ r = 6
               \/ r = 7) by lia.
  repeat (destruct Hc as [-> | Hc]; [vm_compute; split; discriminate | ]).
  subst r. vm_compute; split; discriminate.
Qed.

Lemma calc_encoder_ticks_range (p c : Z) :
  -2 <= calc_encoder_ticks p c <= 2.
Proof.
  unfold calc_encoder_ticks.
  pose proof (clamp_module_max_range (to_uint8 p - to_uint8 c) 6) as Hi.
  change (to_uint16 6) with 6 in Hi.
  specialize (Hi ltac:(lia)).
  set (i := clamp_module_max (to_uint8 p - to_uint8 c) 6) in *.
  assert (Hc : i = 0 \/ i = 1 \/ i = 2 \/ i = 3 \/ i = 4 \/ i = 5) by lia.
  repeat (destruct Hc as [-> | Hc]; [vm_compute; split; discriminate | ]).
  rewrite Hc. vm_compute; split; discriminate.
Qed.

Lemma calc_encoder_ticks_index (p c : Z) :
  0 <= p <= 5 -> 0 <= c <= 5 ->
  calc_encoder_ticks p c = index enc_vals_table ((p - c) mod 6).
Proof.
  intros Hp Hc. unfold calc_encoder_ticks.
  rewrite (to_uint8_id p), (to_uint8_id c) by lia.
  rewrite clamp_module_max_mod by lia.
  pose proof (Z.mod_pos_bound (p - c) 6) as Hr.
  set (i := (p - c) mod 6) in *.
  assert (Hi : i = 0 \/ i = 1 \/ i = 2 \/ i = 3 \/ i = 4 \/ i = 5) by lia.
  repeat (destruct Hi as [-> | Hi]; [reflexivity | ]).
  rewrite Hi. reflexivity.
Qed.

(** C6: the position table maps the raw codes 0..7 to 0,2,0,1,4,3,5,0, so
    to codes in 0..5 with both invalid raw codes on 0; the code sampled from
    the three pins is one of 0..7; and the delta of a transition is the
    entry of the table 0,-1,-2,0,2,1 at (previous - current) mod 6. *)
Theorem hall_decode_tables :
  map hall_position [0; 1; 2; 3; 4; 5; 6; 7] = [0; 2; 0; 1; 4; 3; 5; 0]
  /\ map (index enc_vals_table) [0; 1; 2; 3; 4; 5] = [0; -1; -2; 0; 2; 1]
  /\ (forall u v w : Z,
        0 <= hall_code (logical_not u) (logical_not v) (logical_not w) <= 7)
  /\ (forall r : Z, 0 <= r <= 7 -> 0 <= hall_position r <= 5)
  /\ hall_position 0 = 0 /\ hall_position 7 = 0
  /\ (forall p c : Z,
        0 <= p <= 5 -> 0 <= c <= 5 ->
        calc_encoder_ticks p c
        = nth (Z.to_nat ((p - c) mod 6)) [0; -1; -2; 0; 2; 1] 0).
Proof.
  split; [reflexivity | split; [reflexivity | ]].
  split; [exact hall_code_range | ].
  split; [exact hall_position_range | ].
  split; [reflexivity | split; [reflexivity | ]].
  intros p c Hp Hc. exact (calc_encoder_ticks_index p c Hp Hc).
Qed.

(** ** The handler *)

Section Properties.

Context `{ctl : Controller} (cfg : Config).

#[local] Arguments to_uint8 : simpl never.
#[local] Arguments to_uint16 : simpl never.
#[local] Arguments to_uint32 : simpl never.
#[local] Arguments to_int8 : simpl never.
#[local] Arguments to_int16 : simpl never.
#[local] Arguments logical_not : simpl never.
#[local] Arguments logical_and : simpl never.
#[local] Arguments ABS : simpl never.
#[local] Arguments CLAMP : simpl never.
#[local] Arguments clamp_module_max : simpl never.
#[local] Arguments calc_encoder_ticks : simpl never.
#[local] Arguments encoder : simpl never.
#[local] Arguments duty : simpl never.
#[local] Arguments Z.land : simpl never.
#[local] Arguments Z.lor : simpl never.
#[local] Arguments Z.lxor : simpl never.
#[local] Arguments Z.add : simpl never.
#[local] Arguments Z.modulo : simpl never.
#[local] Arguments Z.div : simpl never.
#[local] Arguments Z.quot : simpl never.
#[local] Arguments Z.shiftr : simpl never.

Ltac split_ifs :=
  repeat match goal with
         | |- context [if ?c then _ else _] => destruct c; cbn
         end.

Lemma buzzer_step_frame (e : env) (s : state) :
  exists s1 evs,
    buzzer_step e s = Continue tt s1
    /\ cal s1 = cal s /\ bat s1 = bat s /\ cur s1 = cur s
    /\ LEFT_TIM s1 = LEFT_TIM s /\ RIGHT_TIM s1 = RIGHT_TIM s
    /\ pwm_margin s1 = pwm_margin s /\ OverrunFlag s1 = OverrunFlag s
    /\ enableFin s1 = enableFin s
    /\ rt_Left s1 = rt_Left s /\ rt_Right s1 = rt_Right s
    /\ odo s1 = odo s
    /\ buzzerTimer (buz s1) = to_uint32 (buzzerTimer (buz s) + 1)
    /\ trace s1 = trace s ++ evs
    /\ forallb is_buzzer evs = true.
Proof.
  unfold buzzer_step, bind, get, modify, when, ret. cbn.
  split_ifs.
  all: eexists; first [ exists []; repeat split; try reflexivity; cbn; rewrite ?app_nil_r; reflexivity | eexists [_]; repeat split; reflexivity].
Qed.


Lemma interlock_eq (m : motor_side) (e : env) (s : state) :
  interlock cfg m e s
  = Continue tt
      (write_BDTR m
         (if (ABS (cur_DC m s) >? curDC_max cfg) || (enable e =? 0)
          then Z.land (BDTR (TIM m s)) (Z.lxor TIM_BDTR_MOE 4294967295)
          else Z.lor (BDTR (TIM m s)) TIM_BDTR_MOE) s).
Proof.
  unfold interlock, bind, get, modify.
  destruct ((ABS (cur_DC m s) >? curDC_max cfg) || (enable e =? 0));
    reflexivity.
Qed.

Lemma adjust_pwm_margin_eq (e : env) (s : state) :
  adjust_pwm_margin cfg e s
  = Continue tt
      (set_pwm_margin
         (if z_ctrlTypSel (rtP_Left e) =? FOC_CTRL cfg then 110 else 0) s).
Proof.
  unfold adjust_pwm_margin, modify.
  destruct (z_ctrlTypSel (rtP_Left e) =? FOC_CTRL cfg); reflexivity.
Qed.

Lemma housekeeping_spec (e : env) (s : state) :
  exists s1,
    housekeeping cfg e s = Continue tt s1 /\ housekeeping_post cfg e s s1.
Proof.
  unfold housekeeping, bind at 1 2 3 4 5, get, modify, when, ret.
  set (s0 := if buzzerTimer (buz s) mod 1000 =? 0
             then filter_battery cfg e s else s).
  assert (Hs0 : forall A (k : state -> outcome A),
             match (if buzzerTimer (buz s) mod 1000 =? 0
                    then fun s2 => Continue tt (filter_battery cfg e s2)
                    else fun s2 => Continue tt s2) s with
             | Continue _ s' => k s'
             | Return s' => Return s'
             end = k s0).
  { intros A k. unfold s0.
    destruct (buzzerTimer (buz s) mod 1000 =? 0); reflexivity. }
  rewrite Hs0. clear Hs0.
  assert (Hf : cal s0 = cal s /\ cur s0 = cur s /\ LEFT_TIM s0 = LEFT_TIM s
               /\ RIGHT_TIM s0 = RIGHT_TIM s /\ buz s0 = buz s
               /\ OverrunFlag s0 = OverrunFlag s
               /\ enableFin s0 = enableFin s /\ rt_Left s0 = rt_Left s
               /\ rt_Right s0 = rt_Right s /\ odo s0 = odo s
               /\ trace s0 = trace s).
  { unfold s0. destruct (buzzerTimer (buz s) mod 1000 =? 0);
      repeat split; reflexivity. }
  destruct Hf as (Hcal & Hcur & HL & HR & Hbuz & Hov & Hen & HrL & HrR
                  & Hodo & Htr).
  unfold bind. rewrite !interlock_eq.
  match goal with
  | |- context [buzzer_step e ?x] =>
      destruct (buzzer_step_frame e x)
        as (s1 & evs & -> & Fcal & Fbat & Fcur & FL & FR & Fm & Fov & Fen
            & FrL & FrR & Fodo & Ftim & Ftr & Fevs)
  end.
  rewrite adjust_pwm_margin_eq.
  eexists. split; [reflexivity | ].
  cbn in Fcal, Fcur, FL, FR, Fov, Fen, FrL, FrR, Fodo, Ftim, Ftr.
  constructor; cbn.
  - congruence.
  - rewrite Fcur, Hcal. reflexivity.
  - intros [|]; cbn; rewrite ?FL, ?FR, Fcur; cbn; rewrite ?HL, ?HR, Hcal;
      reflexivity.
  - intros [|]; cbn; rewrite ?FL, ?FR; cbn; congruence.
  - intros [|]; cbn; rewrite ?FL, ?FR; cbn; congruence.
  - intros [|]; cbn; rewrite ?FL, ?FR; cbn; congruence.
  - reflexivity.
  - congruence.
  - congruence.
  - intros [|]; cbn; congruence.
  - congruence.
  - rewrite Ftim, Hbuz. reflexivity.
  - exists evs. split; [ | exact Fevs].
    rewrite Ftr, FL, FR, Htr, HL, HR, Hcal. cbn.
    rewrite <- !app_assoc. reflexivity.
Qed.


Lemma control_spec (e : env) (s1 : state) :
  OverrunFlag s1 = false ->
  exists s2,
    motor_control_section cfg e s1 = Continue tt s2
    /\ control_post cfg e s1 s2.
Proof.
  intros Hov.
  unfold motor_control_section, motor_control, bind, get, modify, when, ret,
    return_.
  rewrite Hov. unfold MOTOR_ENA, control_events, MOTOR_ENA.
  destruct (MOTOR_LEFT_ENA cfg) eqn:HL, (MOTOR_RIGHT_ENA cfg) eqn:HR; cbn.
  all: eexists; split; [reflexivity | ].
  all: constructor; cbn; try reflexivity.
  all: try (intros [|]; cbn; rewrite ?HL, ?HR;
            first [reflexivity | symmetry; apply surjective_pairing]).
  all: rewrite ?HL, ?HR; cbn; rewrite <- ?app_assoc; reflexivity.
Qed.

Lemma handler_calibrated (e : env) (s : state) :
  2000 <= offsetcount (cal s) ->
  exists s1,
    housekeeping_post cfg e (emit Ev_IFCR s) s1
    /\ DMA1_Channel1_IRQHandler cfg e s
       = if OverrunFlag s then s1
         else call (motor_control_section cfg e) s1.
Proof.
  intros Hcal.
  destruct (housekeeping_spec e (emit Ev_IFCR s)) as (s1 & Hrun & Hpost).
  exists s1. split; [exact Hpost | ].
  unfold DMA1_Channel1_IRQHandler, call, DMA1_Channel1_IRQHandler_body.
  unfold bind at 1 2 3, modify at 1, get at 1, when at 1. cbn [cal emit].
  destruct (Z.ltb_spec (offsetcount (cal s)) 2000) as [Hlt | _]; [lia | ].
  unfold ret, bind. rewrite Hrun.
  pose proof (hk_OverrunFlag _ _ _ _ Hpost) as Hov. cbn in Hov.
  unfold motor_control_section at 1. unfold bind at 1 2, get, when.
  rewrite Hov. destruct (OverrunFlag s) eqn:Hflag.
  - reflexivity.
  - unfold call, ret. unfold motor_control_section, bind, get, when, ret.
    rewrite Hov. reflexivity.
Qed.

Lemma handler_calibrating (e : env) (s : state) :
  offsetcount (cal s) < 2000 ->
  DMA1_Channel1_IRQHandler cfg e s = calibrate_offsets e (emit Ev_IFCR s).
Proof.
  intros Hcal.
  unfold DMA1_Channel1_IRQHandler, call, DMA1_Channel1_IRQHandler_body.
  unfold bind at 1 2 3, modify at 1, get at 1, when at 1. cbn [cal emit].
  destruct (Z.ltb_spec (offsetcount (cal s)) 2000) as [_ | Hge]; [ | lia].
  reflexivity.
Qed.


(** A tick after calibration with the overrun flag clear runs both halves. *)
Lemma tick_spec (e : env) (s : state) :
  2000 <= offsetcount (cal s) ->
  OverrunFlag s = false ->
  exists s1,
    housekeeping_post cfg e (emit Ev_IFCR s) s1
    /\ control_post cfg e s1 (DMA1_Channel1_IRQHandler cfg e s).
Proof.
  intros Hcal Hflag.
  destruct (handler_calibrated e s Hcal) as (s1 & Hpost & ->).
  rewrite Hflag.
  assert (Hov : OverrunFlag s1 = false).
  { rewrite (hk_OverrunFlag _ _ _ _ Hpost). exact Hflag. }
  destruct (control_spec e s1 Hov) as (s2 & Hrun & Hctl).
  exists s1. split; [exact Hpost | ].
  unfold call. rewrite Hrun. exact Hctl.
Qed.

(** A tick after calibration with the overrun flag set stops after the
    first half. *)
Lemma tick_overrun (e : env) (s : state) :
  2000 <= offsetcount (cal s) ->
  OverrunFlag s = true ->
  housekeeping_post cfg e (emit Ev_IFCR s) (DMA1_Channel1_IRQHandler cfg e s).
Proof.
  intros Hcal Hflag.
  destruct (handler_calibrated e s Hcal) as (s1 & Hpost & ->).
  rewrite Hflag. exact Hpost.
Qed.

(** What every tick after calibration does, whatever the overrun flag. *)
Lemma tick_housekeeping (e : env) (s : state) :
  2000 <= offsetcount (cal s) ->
  let s' := DMA1_Channel1_IRQHandler cfg e s in
  cal s' = cal s
  /\ cur s' = cur (acquire_currents e s)
  /\ (forall m,
        BDTR (TIM m s')
        = if (ABS (cur_DC m s') >? curDC_max cfg) || (enable e =? 0)
          then Z.land (BDTR (TIM m s)) (Z.lxor TIM_BDTR_MOE 4294967295)
          else Z.lor (BDTR (TIM m s)) TIM_BDTR_MOE)
  /\ pwm_margin s'
     = (if z_ctrlTypSel (rtP_Left e) =? FOC_CTRL cfg then 110 else 0)
  /\ buzzerTimer (buz s') = to_uint32 (buzzerTimer (buz s) + 1).
Proof.
  intros Hcal s'. subst s'.
  destruct (OverrunFlag s) eqn:Hflag.
  - pose proof (tick_overrun e s Hcal Hflag) as Hp.
    repeat split.
    + exact (hk_cal _ _ _ _ Hp).
    + exact (hk_cur _ _ _ _ Hp).
    + intros m. rewrite (hk_BDTR _ _ _ _ Hp m). destruct m; reflexivity.
    + exact (hk_pwm_margin _ _ _ _ Hp).
    + exact (hk_buzzerTimer _ _ _ _ Hp).
  - destruct (tick_spec e s Hcal Hflag) as (s1 & Hp & Hc).
    repeat split.
    + rewrite (mc_cal _ _ _ _ Hc). exact (hk_cal _ _ _ _ Hp).
    + rewrite (mc_cur _ _ _ _ Hc). exact (hk_cur _ _ _ _ Hp).
    + intros m. rewrite (mc_BDTR _ _ _ _ Hc m), (hk_BDTR _ _ _ _ Hp m).
      unfold cur_DC. rewrite (mc_cur _ _ _ _ Hc).
      destruct m; reflexivity.
    + rewrite (mc_pwm_margin _ _ _ _ Hc). exact (hk_pwm_margin _ _ _ _ Hp).
    + rewrite (mc_buz _ _ _ _ Hc). exact (hk_buzzerTimer _ _ _ _ Hp).
Qed.

Lemma ABS_abs (a : Z) : ABS a = Z.abs a.
Proof. unfold ABS. destruct (Z.ltb_spec a 0); lia. Qed.

Lemma MOE_set_gate (c : bool) (b : Z) :
  Z.testbit
    (if c then Z.land b (Z.lxor TIM_BDTR_MOE 4294967295)
     else Z.lor b TIM_BDTR_MOE) 15
  = negb c.
Proof.
  destruct c.
  - rewrite Z.land_spec.
    replace (Z.testbit (Z.lxor TIM_BDTR_MOE 4294967295) 15) with false
      by reflexivity.
    apply andb_false_r.
  - rewrite Z.lor_spec.
    replace (Z.testbit TIM_BDTR_MOE 15) with true by reflexivity.
    apply orb_true_r.
Qed.

(** The gate of a tick after calibration, as a boolean. *)
Lemma MOE_set_tick (e : env) (s : state) (m : motor_side) :
  2000 <= offsetcount (cal s) ->
  let s' := DMA1_Channel1_IRQHandler cfg e s in
  MOE_set (TIM m s')
  = negb ((ABS (cur_DC m s') >? curDC_max cfg) || (enable e =? 0)).
Proof.
  intros Hcal s'.
  destruct (tick_housekeeping e s Hcal) as (_ & _ & Hb & _).
  unfold MOE_set. fold s' in Hb. rewrite (Hb m).
  apply MOE_set_gate.
Qed.

(** C1, amended: on every tick after calibration and for each motor, the
    master output-enable bit is set if and only if the enable flag is
    nonzero and the magnitude of the DC-link current measured on this tick
    does not exceed [curDC_max]; the bit is a function of the offsets and
    of this tick's inputs alone, whatever the state before the tick. *)
Theorem interlock_gate (e : env) (s : state) (m : motor_side) :
  2000 <= offsetcount (cal s) ->
  let s' := DMA1_Channel1_IRQHandler cfg e s in
  (MOE_set (TIM m s') = true
   <-> enable e <> 0 /\ Z.abs (cur_DC m s') <= curDC_max cfg)
  /\ cur_DC m s'
     = match m with
       | Left => to_int16 (offsetdcl (cal s) - dcl (adc_buffer e))
       | Right => to_int16 (offsetdcr (cal s) - dcr (adc_buffer e))
       end
  /\ (forall s0 : state,
        cal s0 = cal s ->
        MOE_set (TIM m (DMA1_Channel1_IRQHandler cfg e s0))
        = MOE_set (TIM m s')).
Proof.
  intros Hcal s'.
  assert (Hcur : forall s0, cal s0 = cal s ->
            cur_DC m (DMA1_Channel1_IRQHandler cfg e s0)
            = match m with
              | Left => to_int16 (offsetdcl (cal s) - dcl (adc_buffer e))
              | Right => to_int16 (offsetdcr (cal s) - dcr (adc_buffer e))
              end).
  { intros s0 H0.
    assert (Hcal0 : 2000 <= offsetcount (cal s0)) by (rewrite H0; exact Hcal).
    destruct (tick_housekeeping e s0 Hcal0) as (_ & Hc & _).
    unfold cur_DC. rewrite Hc. cbn. rewrite H0. destruct m; reflexivity. }
  split; [ | split].
  - unfold s'. rewrite (MOE_set_tick e s m Hcal). cbv zeta.
    rewrite ABS_abs, negb_true_iff, orb_false_iff.
    rewrite Z.gtb_ltb, Z.ltb_ge, Z.eqb_neq. tauto.
  - exact (Hcur s eq_refl).
  - intros s0 H0.
    assert (Hcal0 : 2000 <= offsetcount (cal s0)) by (rewrite H0; exact Hcal).
    unfold s'.
    rewrite (MOE_set_tick e s0 m Hcal0), (MOE_set_tick e s m Hcal).
    cbv zeta. rewrite (Hcur s0 H0), (Hcur s eq_refl). reflexivity.
Qed.


(** ** Events of a tick *)

Lemma skipn_length_app {A : Type} (l r : list A) :
  skipn (length l) (l ++ r) = r.
Proof. induction l as [| a l IH]; [reflexivity | exact IH]. Qed.

Lemma tick_events_eq (e : env) (s : state) (evs : list event) :
  trace (DMA1_Channel1_IRQHandler cfg e s) = trace s ++ evs ->
  tick_events cfg e s = evs.
Proof.
  intros H. unfold tick_events. rewrite H. apply skipn_length_app.
Qed.

Lemma buzzer_not_actuation (evs : list event) :
  forallb is_buzzer evs = true ->
  forallb (fun ev => negb (is_actuation ev)) evs = true
  /\ forallb (fun ev => negb (is_interlock ev)) evs = true.
Proof.
  induction evs as [| ev evs IH]; cbn; [split; reflexivity | ].
  intros H. apply andb_true_iff in H. destruct H as [Hev Hevs].
  destruct (IH Hevs) as [IH1 IH2]. rewrite IH1, IH2.
  destruct ev; try discriminate; split; reflexivity.
Qed.

Lemma tick_events_calibrating (e : env) (s : state) :
  offsetcount (cal s) < 2000 -> tick_events cfg e s = [Ev_IFCR].
Proof.
  intros Hcal. apply tick_events_eq.
  rewrite (handler_calibrating e s Hcal). reflexivity.
Qed.

Lemma tick_events_overrun (e : env) (s : state) :
  2000 <= offsetcount (cal s) ->
  OverrunFlag s = true ->
  let s' := DMA1_Channel1_IRQHandler cfg e s in
  exists mid,
    tick_events cfg e s
    = Ev_IFCR :: Ev_BDTR Left (BDTR (LEFT_TIM s'))
      :: Ev_BDTR Right (BDTR (RIGHT_TIM s')) :: mid
    /\ forallb is_buzzer mid = true.
Proof.
  intros Hcal Hflag s'. subst s'.
  pose proof (tick_overrun e s Hcal Hflag) as Hp.
  destruct (hk_trace _ _ _ _ Hp) as (mid & Htr & Hmid).
  exists mid. split; [ | exact Hmid].
  apply tick_events_eq. rewrite Htr. cbn.
  rewrite <- app_assoc. reflexivity.
Qed.

Lemma tick_events_control (e : env) (s : state) :
  2000 <= offsetcount (cal s) ->
  OverrunFlag s = false ->
  let s' := DMA1_Channel1_IRQHandler cfg e s in
  exists mid,
    tick_events cfg e s
    = Ev_IFCR :: Ev_BDTR Left (BDTR (LEFT_TIM s'))
      :: Ev_BDTR Right (BDTR (RIGHT_TIM s'))
      :: mid ++ control_events cfg Left s' ++ control_events cfg Right s'
    /\ forallb is_buzzer mid = true.
Proof.
  intros Hcal Hflag s'. subst s'.
  destruct (tick_spec e s Hcal Hflag) as (s1 & Hp & Hc).
  destruct (hk_trace _ _ _ _ Hp) as (mid & Htr & Hmid).
  exists mid. split; [ | exact Hmid].
  apply tick_events_eq.
  rewrite (mc_trace _ _ _ _ Hc), Htr.
  pose proof (mc_BDTR _ _ _ _ Hc Left) as HbL.
  pose proof (mc_BDTR _ _ _ _ Hc Right) as HbR.
  cbn in HbL, HbR. rewrite <- HbL, <- HbR. cbn.
  rewrite <- !app_assoc. reflexivity.
Qed.

(** C2, amended: a tick that begins with the overrun flag set skips the
    motor control only.  It leaves the flag set and changes neither the
    odometry, the compare registers, the controllers nor [enableFin], and
    neither steps a controller nor writes a duty.  After calibration it
    leaves the offsets alone too, but it still measures the currents,
    recomputes both interlock bits and advances the buzzer timer. *)
Theorem overrun_skips_motor_control (e : env) (s : state) :
  OverrunFlag s = true ->
  let s' := DMA1_Channel1_IRQHandler cfg e s in
  OverrunFlag s' = true
  /\ odo s' = odo s
  /\ (forall m, TIM_U (TIM m s') = TIM_U (TIM m s)
                /\ TIM_V (TIM m s') = TIM_V (TIM m s)
                /\ TIM_W (TIM m s') = TIM_W (TIM m s))
  /\ (forall m, rt m s' = rt m s)
  /\ enableFin s' = enableFin s
  /\ forallb (fun ev => negb (is_actuation ev)) (tick_events cfg e s) = true
  /\ (2000 <= offsetcount (cal s) ->
      cal s' = cal s
      /\ cur s' = cur (acquire_currents e s)
      /\ buzzerTimer (buz s') = to_uint32 (buzzerTimer (buz s) + 1)
      /\ forall m,
          MOE_set (TIM m s')
          = negb ((ABS (cur_DC m s') >? curDC_max cfg) || (enable e =? 0))).
Proof.
  intros Hflag s'.
  destruct (Z_lt_ge_dec (offsetcount (cal s)) 2000) as [Hcal | Hcal].
  - unfold s'. rewrite (tick_events_calibrating e s Hcal).
    rewrite (handler_calibrating e s Hcal). cbn.
    repeat split; try (exact Hflag); try lia.
    all: intros [|]; reflexivity.
  - apply Z.ge_le in Hcal.
    pose proof (tick_overrun e s Hcal Hflag) as Hp.
    destruct (tick_events_overrun e s Hcal Hflag) as (mid & -> & Hmid).
    subst s'.
    repeat split.
    + rewrite (hk_OverrunFlag _ _ _ _ Hp). exact Hflag.
    + exact (hk_odo _ _ _ _ Hp).
    + rewrite (hk_TIM_U _ _ _ _ Hp m). destruct m; reflexivity.
    + rewrite (hk_TIM_V _ _ _ _ Hp m). destruct m; reflexivity.
    + rewrite (hk_TIM_W _ _ _ _ Hp m). destruct m; reflexivity.
    + intros m. rewrite (hk_rt _ _ _ _ Hp m). destruct m; reflexivity.
    + exact (hk_enableFin _ _ _ _ Hp).
    + cbn. exact (proj1 (buzzer_not_actuation mid Hmid)).
    + exact (hk_cal _ _ _ _ Hp).
    + exact (hk_cur _ _ _ _ Hp).
    + exact (hk_buzzerTimer _ _ _ _ Hp).
    + intros m. exact (MOE_set_tick e s m Hcal).
Qed.


(** ** Duty clamp *)

Lemma CLAMP_range (x low high : Z) :
  low <= high -> low <= CLAMP x low high <= high.
Proof.
  intros H. unfold CLAMP.
  destruct (Z.gtb_spec x high); [lia | ].
  destruct (Z.ltb_spec x low); lia.
Qed.

Lemma duty_range (d : Z) (s : state) :
  pwm_margin s = 0 \/ pwm_margin s = 110 ->
  duty d s = CLAMP (d + pwm_res ÷ 2) (pwm_margin s) (pwm_res - pwm_margin s)
  /\ pwm_margin s <= duty d s <= pwm_res - pwm_margin s.
Proof.
  intros Hm. unfold duty.
  change pwm_res with 2000.
  assert (Hr : pwm_margin s
               <= CLAMP (d + 2000 ÷ 2) (pwm_margin s) (2000 - pwm_margin s)
               <= 2000 - pwm_margin s) by (apply CLAMP_range; lia).
  rewrite to_uint16_id by lia.
  split; [reflexivity | exact Hr].
Qed.

Lemma pwm_margin_cases (e : env) :
  (if z_ctrlTypSel (rtP_Left e) =? FOC_CTRL cfg then 110 else 0) = 0
  \/ (if z_ctrlTypSel (rtP_Left e) =? FOC_CTRL cfg then 110 else 0) = 110.
Proof.
  destruct (z_ctrlTypSel (rtP_Left e) =? FOC_CTRL cfg); [right | left];
    reflexivity.
Qed.

(** The three compare registers of each motor after a tick that reaches
    the motor control. *)
Lemma duty_written (e : env) (s : state) (m : motor_side) :
  2000 <= offsetcount (cal s) ->
  OverrunFlag s = false ->
  let s' := DMA1_Channel1_IRQHandler cfg e s in
  let y := rtY (rt m s') in
  let w d := CLAMP (d + pwm_res ÷ 2) (pwm_margin s')
               (pwm_res - pwm_margin s') in
  (TIM_U (TIM m s') = w (DC_phaA y)
   /\ TIM_V (TIM m s') = w (DC_phaB y)
   /\ TIM_W (TIM m s') = w (DC_phaC y))
  /\ pwm_margin s' <= TIM_U (TIM m s') <= pwm_res - pwm_margin s'
  /\ pwm_margin s' <= TIM_V (TIM m s') <= pwm_res - pwm_margin s'
  /\ pwm_margin s' <= TIM_W (TIM m s') <= pwm_res - pwm_margin s'.
Proof.
  intros Hcal Hflag s' y w. subst s' y w. cbv beta.
  destruct (tick_spec e s Hcal Hflag) as (s1 & Hp & Hc).
  rewrite (mc_TIM_U _ _ _ _ Hc m), (mc_TIM_V _ _ _ _ Hc m),
    (mc_TIM_W _ _ _ _ Hc m), (mc_pwm_margin _ _ _ _ Hc).
  assert (Hm : pwm_margin s1 = 0 \/ pwm_margin s1 = 110).
  { rewrite (hk_pwm_margin _ _ _ _ Hp). apply pwm_margin_cases. }
  destruct (duty_range (DC_phaA (rtY (rt m (DMA1_Channel1_IRQHandler cfg e s))))
              s1 Hm) as [-> HU].
  destruct (duty_range (DC_phaB (rtY (rt m (DMA1_Channel1_IRQHandler cfg e s))))
              s1 Hm) as [-> HV].
  destruct (duty_range (DC_phaC (rtY (rt m (DMA1_Channel1_IRQHandler cfg e s))))
              s1 Hm) as [-> HW].
  repeat split; lia.
Qed.

Lemma In_control_events (m m' : motor_side) (ph : phase) (v : Z)
    (s' : state) :
  In (Ev_CCR m' ph v) (control_events cfg m s') ->
  m' = m
  /\ v = match ph with
         | PhaseU => TIM_U (TIM m s')
         | PhaseV => TIM_V (TIM m s')
         | PhaseW => TIM_W (TIM m s')
         end.
Proof.
  unfold control_events. intros H. apply in_app_or in H.
  destruct H as [H | H].
  - destruct (MOTOR_ENA cfg m); cbn in H; [destruct H as [H | []] | destruct H].
    discriminate H.
  - cbn in H. destruct H as [H | [H | [H | []]]]; inversion H; subst;
      split; reflexivity.
Qed.

(** C3: on a tick that reaches the motor control, each compare register
    receives the raw duty of the controller re-centred by [pwm_res / 2] and
    clamped into [[pwm_margin, pwm_res - pwm_margin]], where [pwm_margin] is
    110 when the FOC control type is selected and 0 otherwise; and no tick
    at all writes a compare register with a value outside that window. *)
Theorem duty_clamp (e : env) (s : state) :
  let s' := DMA1_Channel1_IRQHandler cfg e s in
  let w d := CLAMP (d + pwm_res ÷ 2) (pwm_margin s')
               (pwm_res - pwm_margin s') in
  (2000 <= offsetcount (cal s) ->
   pwm_margin s'
   = if z_ctrlTypSel (rtP_Left e) =? FOC_CTRL cfg then 110 else 0)
  /\ (2000 <= offsetcount (cal s) -> OverrunFlag s = false ->
      forall m,
        TIM_U (TIM m s') = w (DC_phaA (rtY (rt m s')))
        /\ TIM_V (TIM m s') = w (DC_phaB (rtY (rt m s')))
        /\ TIM_W (TIM m s') = w (DC_phaC (rtY (rt m s')))
        /\ pwm_margin s' <= TIM_U (TIM m s') <= pwm_res - pwm_margin s'
        /\ pwm_margin s' <= TIM_V (TIM m s') <= pwm_res - pwm_margin s'
        /\ pwm_margin s' <= TIM_W (TIM m s') <= pwm_res - pwm_margin s')
  /\ (forall m ph v,
        In (Ev_CCR m ph v) (tick_events cfg e s) ->
        pwm_margin s' <= v <= pwm_res - pwm_margin s').
Proof.
  intros s' w. subst s' w. cbv beta.
  split; [ | split].
  - intros Hcal.
    destruct (tick_housekeeping e s Hcal) as (_ & _ & _ & Hm & _). exact Hm.
  - intros Hcal Hflag m.
    destruct (duty_written e s m Hcal Hflag) as ((HU & HV & HW) & RU & RV & RW).
    repeat split; solve [assumption | lia].
  - intros m ph v Hin.
    destruct (Z_lt_ge_dec (offsetcount (cal s)) 2000) as [Hcal | Hcal].
    { rewrite (tick_events_calibrating e s Hcal) in Hin.
      destruct Hin as [Hin | []]. discriminate Hin. }
    apply Z.ge_le in Hcal.
    destruct (OverrunFlag s) eqn:Hflag.
    { destruct (tick_events_overrun e s Hcal Hflag) as (mid & Hev & Hmid).
      rewrite Hev in Hin.
      destruct Hin as [Hin | [Hin | [Hin | Hin]]]; try discriminate Hin.
      rewrite forallb_forall in Hmid. specialize (Hmid _ Hin).
      discriminate Hmid. }
    destruct (tick_events_control e s Hcal Hflag) as (mid & Hev & Hmid).
    rewrite Hev in Hin.
    destruct Hin as [Hin | [Hin | [Hin | Hin]]]; try discriminate Hin.
    apply in_app_or in Hin. destruct Hin as [Hin | Hin].
    { rewrite forallb_forall in Hmid. specialize (Hmid _ Hin).
      discriminate Hmid. }
    apply in_app_or in Hin.
    assert (Hv : exists m0,
               v = match ph with
                   | PhaseU => TIM_U (TIM m0 (DMA1_Channel1_IRQHandler cfg e s))
                   | PhaseV => TIM_V (TIM m0 (DMA1_Channel1_IRQHandler cfg e s))
                   | PhaseW => TIM_W (TIM m0 (DMA1_Channel1_IRQHandler cfg e s))
                   end).
    { destruct Hin as [Hin | Hin];
        apply In_control_events in Hin; destruct Hin as [_ Hin];
        eexists; exact Hin. }
    destruct Hv as (m0 & ->).
    destruct (duty_written e s m0 Hcal Hflag) as (_ & RU & RV & RW).
    destruct ph; assumption.
Qed.


(** ** Odometry *)

Lemma clamp_module_max_9000 (v : Z) : 0 <= clamp_module_max v 9000 < 9000.
Proof. exact (clamp_module_max_range v 9000 ltac:(reflexivity)). Qed.

(** Every tick leaves both counters in range when it finds them there. *)
Lemma odometry_invariant_step (e : env) (s : state) :
  0 <= wheel_left_ticks (odo s) < 9000 ->
  0 <= wheel_right_ticks (odo s) < 9000 ->
  let s' := DMA1_Channel1_IRQHandler cfg e s in
  0 <= wheel_left_ticks (odo s') < 9000
  /\ 0 <= wheel_right_ticks (odo s') < 9000.
Proof.
  intros HL HR s'. subst s'.
  destruct (Z_lt_ge_dec (offsetcount (cal s)) 2000) as [Hcal | Hcal].
  { rewrite (handler_calibrating e s Hcal). cbn. split; assumption. }
  apply Z.ge_le in Hcal.
  destruct (OverrunFlag s) eqn:Hflag.
  - pose proof (tick_overrun e s Hcal Hflag) as Hp.
    rewrite (hk_odo _ _ _ _ Hp). cbn. split; assumption.
  - destruct (tick_spec e s Hcal Hflag) as (s1 & Hp & Hc).
    rewrite (mc_wheel_left _ _ _ _ Hc), (mc_wheel_right _ _ _ _ Hc).
    split; apply clamp_module_max_9000.
Qed.

Lemma odometry_invariant_run (es : list env) (s : state) :
  0 <= wheel_left_ticks (odo s) < 9000 ->
  0 <= wheel_right_ticks (odo s) < 9000 ->
  0 <= wheel_left_ticks (odo (run cfg s es)) < 9000
  /\ 0 <= wheel_right_ticks (odo (run cfg s es)) < 9000.
Proof.
  revert s. induction es as [| e es IH]; intros s HL HR; cbn.
  - split; assumption.
  - destruct (odometry_invariant_step e s HL HR) as [HL' HR'].
    apply IH; assumption.
Qed.

(** The counters after a tick that reaches the motor control. *)
Lemma odometry_step (e : env) (s : state) :
  2000 <= offsetcount (cal s) ->
  OverrunFlag s = false ->
  0 <= wheel_left_ticks (odo s) < 9000 ->
  0 <= wheel_right_ticks (odo s) < 9000 ->
  let dl := calc_encoder_ticks (enc_val_previous_left (odo s))
              (encoder Left e) in
  let dr := calc_encoder_ticks (enc_val_previous_right (odo s))
              (encoder Right e) in
  let s' := DMA1_Channel1_IRQHandler cfg e s in
  wheel_left_ticks (odo s') = (wheel_left_ticks (odo s) + dl) mod 9000
  /\ wheel_right_ticks (odo s') = (wheel_right_ticks (odo s) - dr) mod 9000.
Proof.
  intros Hcal Hflag HL HR dl dr s'. subst s'.
  destruct (tick_spec e s Hcal Hflag) as (s1 & Hp & Hc).
  rewrite (mc_wheel_left _ _ _ _ Hc), (mc_wheel_right _ _ _ _ Hc).
  rewrite (hk_odo _ _ _ _ Hp). cbn. fold dl dr.
  pose proof (calc_encoder_ticks_range (enc_val_previous_left (odo s))
                (encoder Left e)) as Hdl.
  pose proof (calc_encoder_ticks_range (enc_val_previous_right (odo s))
                (encoder Right e)) as Hdr.
  fold dl in Hdl. fold dr in Hdr.
  split.
  - apply clamp_module_max_mod; lia.
  - apply clamp_module_max_mod; lia.
Qed.

(** C4: from reset and for every sequence of inputs, both tick counters stay
    in [[0, 9000)]; a tick that reaches the motor control adds the delta of
    the left motor, subtracts that of the right motor, both deltas being in
    [[-2, 2]], and wraps modulo 9000; 8999 and a step forward give 0. *)
Theorem odometry_wraps :
  (forall tl tr pin ml mr (es : list env),
     let s := run cfg (initial_state cfg tl tr pin ml mr) es in
     0 <= wheel_left_ticks (odo s) < 9000
     /\ 0 <= wheel_right_ticks (odo s) < 9000)
  /\ (forall (e : env) (s : state),
        2000 <= offsetcount (cal s) ->
        OverrunFlag s = false ->
        0 <= wheel_left_ticks (odo s) < 9000 ->
        0 <= wheel_right_ticks (odo s) < 9000 ->
        let dl := calc_encoder_ticks (enc_val_previous_left (odo s))
                    (encoder Left e) in
        let dr := calc_encoder_ticks (enc_val_previous_right (odo s))
                    (encoder Right e) in
        let s' := DMA1_Channel1_IRQHandler cfg e s in
        -2 <= dl <= 2 /\ -2 <= dr <= 2
        /\ wheel_left_ticks (odo s')
           = (wheel_left_ticks (odo s) + dl) mod 9000
        /\ wheel_right_ticks (odo s')
           = (wheel_right_ticks (odo s) - dr) mod 9000)
  /\ clamp_module_max (8999 + 1) 9000 = 0.
Proof.
  split; [ | split].
  - intros tl tr pin ml mr es s. subst s.
    apply odometry_invariant_run; cbn; lia.
  - intros e s Hcal Hflag HL HR dl dr s'.
    split; [apply calc_encoder_ticks_range | ].
    split; [apply calc_encoder_ticks_range | ].
    exact (odometry_step e s Hcal Hflag HL HR).
  - reflexivity.
Qed.

(** C5, amended: a tick on which the raw hall code of a motor is 0 or 7
    decodes it as the canonical code 0, which is also the code of the raw
    code 2: the delta is the entry of [enc_vals_table] at the previous
    canonical code, so the tick counter of that motor keeps its value when
    the previous code is 0 or 3; the tick runs to its end like any other. *)
Theorem invalid_hall_code_decoded_as_position_0
    (e : env) (s : state) (m : motor_side) :
  2000 <= offsetcount (cal s) ->
  OverrunFlag s = false ->
  let raw := hall_code (logical_not (hall_u_pin m e))
               (logical_not (hall_v_pin m e)) (logical_not (hall_w_pin m e)) in
  raw = 0 \/ raw = 7 ->
  0 <= enc_val_previous m s <= 5 ->
  0 <= wheel_left_ticks (odo s) < 9000 ->
  0 <= wheel_right_ticks (odo s) < 9000 ->
  let d := index enc_vals_table (enc_val_previous m s) in
  let s' := DMA1_Channel1_IRQHandler cfg e s in
  encoder m e = hall_position 2
  /\ enc_val_previous m s' = 0
  /\ wheel_ticks m s'
     = match m with
       | Left => (wheel_ticks m s + d) mod 9000
       | Right => (wheel_ticks m s - d) mod 9000
       end
  /\ (enc_val_previous m s = 0 \/ enc_val_previous m s = 3 ->
      wheel_ticks m s' = wheel_ticks m s)
  /\ OverrunFlag s' = false.
Proof.
  intros Hcal Hflag raw Hraw Hprev HL HR d s'.
  assert (Henc : encoder m e = 0).
  { unfold encoder. fold raw. destruct Hraw as [-> | ->]; reflexivity. }
  assert (Hd : calc_encoder_ticks (enc_val_previous m s) (encoder m e) = d).
  { rewrite Henc, calc_encoder_ticks_index by lia.
    rewrite Z.sub_0_r, Z.mod_small by lia. reflexivity. }
  destruct (odometry_step e s Hcal Hflag HL HR) as [HwL HwR].
  destruct (tick_spec e s Hcal Hflag) as (s1 & Hp & Hc).
  fold s' in HwL, HwR, Hc.
  assert (Hw : wheel_ticks m s'
               = match m with
                 | Left => (wheel_ticks m s + d) mod 9000
                 | Right => (wheel_ticks m s - d) mod 9000
                 end).
  { destruct m; cbn in *; rewrite <- Hd; assumption. }
  split; [rewrite Henc; reflexivity | ].
  split; [rewrite (mc_enc_val_previous _ _ _ _ Hc m); exact Henc | ].
  split; [exact Hw | ].
  split; [ | exact (mc_OverrunFlag _ _ _ _ Hc)].
  intros H03. rewrite Hw.
  assert (Hd0 : d = 0).
  { unfold d. destruct H03 as [-> | ->]; reflexivity. }
  rewrite Hd0. destruct m; cbn in *;
    rewrite ?Z.add_0_r, ?Z.sub_0_r; apply Z.mod_small; assumption.
Qed.


(** ** Order of the interlock and of the actuation *)

Lemma control_events_actuation (m : motor_side) (s' : state) :
  forallb is_actuation (control_events cfg m s') = true
  /\ forallb (fun ev => negb (is_interlock ev)) (control_events cfg m s')
     = true.
Proof.
  unfold control_events. destruct (MOTOR_ENA cfg m); split; reflexivity.
Qed.

Lemma CCR_in_control_events (m : motor_side) (ph : phase) (s' : state) :
  In (Ev_CCR m ph
        match ph with
        | PhaseU => TIM_U (TIM m s')
        | PhaseV => TIM_V (TIM m s')
        | PhaseW => TIM_W (TIM m s')
        end)
    (control_events cfg m s').
Proof.
  unfold control_events. apply in_or_app. right.
  destruct ph; cbn; auto.
Qed.

(** C7: the events of a tick that reaches the motor control are the
    interrupt acknowledge, the write of the left and of the right interlock
    bit, the buzzer, and only then the controller steps and the six duty
    writes: the interlock writes are the events 1 and 2 and carry this
    tick's decision, every step and every duty write comes after them. *)
Theorem interlock_precedes_actuation (e : env) (s : state) :
  2000 <= offsetcount (cal s) ->
  OverrunFlag s = false ->
  let s' := DMA1_Channel1_IRQHandler cfg e s in
  let evs := tick_events cfg e s in
  (exists mid,
     evs = Ev_IFCR :: Ev_BDTR Left (BDTR (LEFT_TIM s'))
           :: Ev_BDTR Right (BDTR (RIGHT_TIM s'))
           :: mid ++ control_events cfg Left s' ++ control_events cfg Right s'
     /\ forallb is_buzzer mid = true)
  /\ (forall m,
        MOE_set (TIM m s')
        = negb ((ABS (cur_DC m s') >? curDC_max cfg) || (enable e =? 0)))
  /\ (forall i a,
        nth_error evs i = Some a -> is_interlock a = true ->
        (1 <= i <= 2)%nat)
  /\ (forall j b,
        nth_error evs j = Some b -> is_actuation b = true -> (2 < j)%nat)
  /\ (forall m ph,
        exists j v, (2 < j)%nat /\ nth_error evs j = Some (Ev_CCR m ph v)).
Proof.
  intros Hcal Hflag s' evs.
  destruct (tick_events_control e s Hcal Hflag) as (mid & Hev & Hmid).
  fold s' evs in Hev.
  split; [exists mid; split; assumption | ].
  split; [intros m; exact (MOE_set_tick e s m Hcal) | ].
  assert (Hrest : forall a,
            In a (mid ++ control_events cfg Left s'
                  ++ control_events cfg Right s') ->
            is_interlock a = false).
  { intros a Hin. apply negb_true_iff.
    apply in_app_or in Hin. destruct Hin as [Hin | Hin].
    - destruct (buzzer_not_actuation mid Hmid) as [_ H].
      rewrite forallb_forall in H. exact (H a Hin).
    - apply in_app_or in Hin. destruct Hin as [Hin | Hin];
        [destruct (control_events_actuation Left s') as [_ H]
        | destruct (control_events_actuation Right s') as [_ H]];
        rewrite forallb_forall in H; exact (H a Hin). }
  rewrite Hev. split; [ | split].
  - intros [| [| [| i]]] a Hnth Ha; cbn in Hnth; try lia.
    + inversion Hnth; subst a. discriminate Ha.
    + apply nth_error_In in Hnth. rewrite (Hrest a Hnth) in Ha.
      discriminate Ha.
  - intros [| [| [| j]]] b Hnth Hb; cbn in Hnth; try lia;
      inversion Hnth; subst b; discriminate Hb.
  - intros m ph.
    assert (Hin : exists v,
               In (Ev_CCR m ph v)
                 (mid ++ control_events cfg Left s'
                  ++ control_events cfg Right s')).
    { eexists. apply in_or_app. right. apply in_or_app.
      destruct m; [left | right]; apply CCR_in_control_events. }
    destruct Hin as (v & Hin).
    apply In_nth_error in Hin. destruct Hin as (n & Hn).
    exists (S (S (S n))), v. split; [lia | exact Hn].
Qed.

(** ** Calibration *)

(** C8: once the sample counter is at 2000 (or beyond), no sequence of
    ticks, whatever its raw samples, changes the counter or any of the six
    offsets. *)
Theorem offsets_frozen_after_calibration (s : state) (es : list env) :
  2000 <= offsetcount (cal s) ->
  cal (run cfg s es) = cal s
  /\ offsetrlA (cal (run cfg s es)) = offsetrlA (cal s)
  /\ offsetrlB (cal (run cfg s es)) = offsetrlB (cal s)
  /\ offsetrrB (cal (run cfg s es)) = offsetrrB (cal s)
  /\ offsetrrC (cal (run cfg s es)) = offsetrrC (cal s)
  /\ offsetdcl (cal (run cfg s es)) = offsetdcl (cal s)
  /\ offsetdcr (cal (run cfg s es)) = offsetdcr (cal s).
Proof.
  intros Hcal.
  assert (H : cal (run cfg s es) = cal s).
  { revert s Hcal. induction es as [| e es IH]; intros s Hcal; cbn.
    - reflexivity.
    - destruct (tick_housekeeping e s Hcal) as (Hc & _).
      rewrite IH by (rewrite Hc; exact Hcal). exact Hc. }
  rewrite H. repeat split; reflexivity.
Qed.

(** The counter reaches 2000 after 2000 ticks and stays there. *)
Lemma calibration_completes (es : list env) (s : state) :
  0 <= offsetcount (cal s) <= 2000 ->
  offsetcount (cal (run cfg s es))
  = Z.min 2000 (offsetcount (cal s) + Z.of_nat (length es)).
Proof.
  revert s. induction es as [| e es IH]; intros s Hc.
  - cbn. lia.
  - cbn [run length].
    destruct (Z_lt_ge_dec (offsetcount (cal s)) 2000) as [Hlt | Hge].
    + assert (Hn : offsetcount (cal (DMA1_Channel1_IRQHandler cfg e s))
                   = offsetcount (cal s) + 1).
      { rewrite (handler_calibrating e s Hlt). cbn.
        apply to_uint16_id. lia. }
      rewrite IH by lia. rewrite Hn. lia.
    + assert (Hcal : 2000 <= offsetcount (cal s)) by lia.
      destruct (tick_housekeeping e s Hcal) as (Hcl & _).
      rewrite IH by (rewrite Hcl; lia). rewrite Hcl. lia.
Qed.

(** ** Fault code *)

Lemma logical_and_1 (a b : Z) : logical_and a b = 1 <-> a <> 0 /\ b <> 0.
Proof.
  unfold logical_and.
  destruct (Z.eqb_spec a 0), (Z.eqb_spec b 0); split; intros H; try lia;
    destruct H; contradiction.
Qed.

Lemma logical_and_nonzero (a b : Z) :
  logical_and a b <> 0 <-> a <> 0 /\ b <> 0.
Proof.
  unfold logical_and.
  destruct (Z.eqb_spec a 0), (Z.eqb_spec b 0); split; intros H; try lia;
    destruct H; contradiction.
Qed.

Lemma logical_not_nonzero (a : Z) : logical_not a <> 0 <-> a = 0.
Proof.
  unfold logical_not. destruct (Z.eqb_spec a 0); split; intros H; lia.
Qed.

Lemma logical_and_bool (a b : Z) : logical_and a b = 0 \/ logical_and a b = 1.
Proof.
  unfold logical_and. destruct (a =? 0), (b =? 0); auto.
Qed.

(** C9, amended: the core does use the fault code.  On a tick that reaches
    the motor control, the enable bit handed to both controllers is 1 if and
    only if the enable flag is nonzero and neither controller reported a
    fault on its previous step; it is [enableFin].  The outputs of a
    controller, its fault code among them, are stored as the step returned
    them. *)
Theorem motor_enable_composes_fault (e : env) (s : state) (m : motor_side) :
  2000 <= offsetcount (cal s) ->
  OverrunFlag s = false ->
  let s' := DMA1_Channel1_IRQHandler cfg e s in
  (b_motEna (rtU (rt m s')) = 1
   <-> enable e <> 0
       /\ z_errCode (rtY (rt_Left s)) = 0
       /\ z_errCode (rtY (rt_Right s)) = 0)
  /\ (b_motEna (rtU (rt m s')) = 0 \/ b_motEna (rtU (rt m s')) = 1)
  /\ b_motEna (rtU (rt m s')) = enableFin s'
  /\ (rtDW (rt m s'), rtY (rt m s'))
     = if MOTOR_ENA cfg m
       then BLDC_controller_step (rtP m e) (rtU (rt m s'))
              (rtDW (rt m s)) (rtY (rt m s))
       else (rtDW (rt m s), rtY (rt m s)).
Proof.
  intros Hcal Hflag s'. subst s'.
  destruct (tick_spec e s Hcal Hflag) as (s1 & Hp & Hc).
  pose proof (hk_rt _ _ _ _ Hp Left) as HrL.
  pose proof (hk_rt _ _ _ _ Hp Right) as HrR.
  pose proof (hk_rt _ _ _ _ Hp m) as Hrm.
  cbn in HrL, HrR.
  assert (Hrm' : rt m s1 = rt m s) by (rewrite Hrm; destruct m; reflexivity).
  rewrite (mc_step _ _ _ _ Hc m), (mc_enableFin _ _ _ _ Hc),
    (mc_rtU _ _ _ _ Hc m), Hrm'.
  assert (Hb : b_motEna (controller_inputs m e s1)
               = logical_and
                   (logical_and (enable e)
                      (logical_not (z_errCode (rtY (rt_Left s)))))
                   (logical_not (z_errCode (rtY (rt_Right s))))).
  { cbn. rewrite HrL, HrR. reflexivity. }
  split; [ | split; [ | split]].
  - rewrite Hb, logical_and_1, logical_and_nonzero, !logical_not_nonzero.
    tauto.
  - rewrite Hb. apply logical_and_bool.
  - reflexivity.
  - reflexivity.
Qed.

End Properties.

(** * The theorems at work on the reference configuration *)

Import Reference.

Lemma clamp_module_max_residue_witness :
  (-32768 <= -1 <= 32767) /\ (0 < 9000 <= 65535)
  /\ clamp_module_max (-1) 9000 = (-1) mod 9000.
Proof.
  assert (Hv : -32768 <= -1 <= 32767) by lia.
  assert (Hm : 0 < 9000 <= 65535) by lia.
  split; [exact Hv | split; [exact Hm | ]].
  apply (clamp_module_max_residue (-1) 9000 Hv Hm).
Defined.

Lemma hall_decode_tables_witness :
  (0 <= 1 <= 5) /\ (0 <= 0 <= 5)
  /\ calc_encoder_ticks 1 0
     = nth (Z.to_nat ((1 - 0) mod 6)) [0; -1; -2; 0; 2; 1] 0.
Proof.
  assert (Hp : 0 <= 1 <= 5) by lia.
  assert (Hc : 0 <= 0 <= 5) by lia.
  split; [exact Hp | split; [exact Hc | ]].
  destruct hall_decode_tables as (_ & _ & _ & _ & _ & _ & H).
  exact (H 1 0 Hp Hc).
Defined.

Lemma interlock_gate_witness :
  2000 <= offsetcount (cal (calibrated false 0 0))
  /\ (MOE_set (TIM Left (DMA1_Channel1_IRQHandler config at_limit
                           (calibrated false 0 0))) = true
      <-> enable at_limit <> 0
          /\ Z.abs (cur_DC Left (DMA1_Channel1_IRQHandler config at_limit
                                   (calibrated false 0 0)))
             <= curDC_max config).
Proof.
  assert (H : 2000 <= offsetcount (cal (calibrated false 0 0)))
    by (cbn; lia).
  split; [exact H | ].
  apply (interlock_gate config at_limit (calibrated false 0 0) Left H).
Defined.

(** C1 as stated fails: with the enable flag set and a DC-link current of
    850 = [curDC_max], which is not below the limit, the left power stage is
    armed. *)
Lemma interlock_strict_bound_counterexample :
  let s := calibrated false 0 0 in
  let s' := DMA1_Channel1_IRQHandler config at_limit s in
  2000 <= offsetcount (cal s)
  /\ curL_DC (cur s') = 850 /\ curDC_max config = 850
  /\ ~ (MOE_set (LEFT_TIM s') = true
        <-> enable at_limit <> 0
            /\ Z.abs (curL_DC (cur s')) < curDC_max config).
Proof.
  vm_compute. split; [discriminate | ].
  split; [reflexivity | split; [reflexivity | ]].
  intros [H _]. specialize (H eq_refl). destruct H as [_ H].
  discriminate H.
Qed.

Lemma overrun_skips_motor_control_witness :
  OverrunFlag (calibrated true 0 0) = true
  /\ OverrunFlag (DMA1_Channel1_IRQHandler config at_limit
                    (calibrated true 0 0)) = true.
Proof.
  assert (H : OverrunFlag (calibrated true 0 0) = true) by reflexivity.
  split; [exact H | ].
  apply (overrun_skips_motor_control config at_limit (calibrated true 0 0) H).
Defined.

(** C2 as stated fails: a tick that begins with the overrun flag set still
    changes the currents, the battery filter, both interlock bits, the
    buzzer timer and, before the end of the calibration, the offsets. *)
Lemma overrun_tick_mutates_state :
  let s := calibrated true 0 0 in
  let s' := DMA1_Channel1_IRQHandler config at_limit s in
  let c := set_OverrunFlag true reset in
  let c' := DMA1_Channel1_IRQHandler config at_limit c in
  OverrunFlag s = true /\ OverrunFlag c = true
  /\ cur s' <> cur s
  /\ bat s' <> bat s
  /\ BDTR (LEFT_TIM s') <> BDTR (LEFT_TIM s)
  /\ BDTR (RIGHT_TIM s') <> BDTR (RIGHT_TIM s)
  /\ buzzerTimer (buz s') <> buzzerTimer (buz s)
  /\ offsetdcl (cal c') <> offsetdcl (cal c).
Proof.
  vm_compute. repeat split; discriminate.
Qed.

Lemma duty_clamp_witness :
  2000 <= offsetcount (cal (calibrated false 0 0))
  /\ OverrunFlag (calibrated false 0 0) = false
  /\ In (Ev_CCR Left PhaseU 1300)
       (tick_events config at_limit (calibrated false 0 0))
  /\ pwm_margin (DMA1_Channel1_IRQHandler config at_limit
                   (calibrated false 0 0))
     = (if z_ctrlTypSel (rtP_Left at_limit) =? FOC_CTRL config
        then 110 else 0)
  /\ (pwm_margin (DMA1_Channel1_IRQHandler config at_limit
                    (calibrated false 0 0))
      <= TIM_U (TIM Left (DMA1_Channel1_IRQHandler config at_limit
                            (calibrated false 0 0)))
      <= pwm_res - pwm_margin (DMA1_Channel1_IRQHandler config at_limit
                                 (calibrated false 0 0)))
  /\ (pwm_margin (DMA1_Channel1_IRQHandler config at_limit
                    (calibrated false 0 0))
      <= 1300
      <= pwm_res - pwm_margin (DMA1_Channel1_IRQHandler config at_limit
                                 (calibrated false 0 0))).
Proof.
  assert (H1 : 2000 <= offsetcount (cal (calibrated false 0 0)))
    by (cbn; lia).
  assert (H2 : OverrunFlag (calibrated false 0 0) = false) by reflexivity.
  assert (H3 : In (Ev_CCR Left PhaseU 1300)
                 (tick_events config at_limit (calibrated false 0 0)))
    by (vm_compute; tauto).
  repeat (split; [assumption | ]).
  destruct (duty_clamp config at_limit (calibrated false 0 0))
    as (Hm & Hw & Hev).
  split; [exact (Hm H1) | split].
  - apply (Hw H1 H2 Left).
  - exact (Hev Left PhaseU 1300 H3).
Defined.

Lemma odometry_wraps_witness :
  2000 <= offsetcount (cal (calibrated false 0 8999))
  /\ OverrunFlag (calibrated false 0 8999) = false
  /\ 0 <= wheel_left_ticks (odo (calibrated false 0 8999)) < 9000
  /\ 0 <= wheel_right_ticks (odo (calibrated false 0 8999)) < 9000
  /\ wheel_left_ticks
       (odo (DMA1_Channel1_IRQHandler config position_1
               (calibrated false 0 8999)))
     = (wheel_left_ticks (odo (calibrated false 0 8999))
        + calc_encoder_ticks
            (enc_val_previous_left (odo (calibrated false 0 8999)))
            (encoder Left position_1)) mod 9000.
Proof.
  assert (H1 : 2000 <= offsetcount (cal (calibrated false 0 8999)))
    by (cbn; lia).
  assert (H2 : OverrunFlag (calibrated false 0 8999) = false) by reflexivity.
  assert (H3 : 0 <= wheel_left_ticks (odo (calibrated false 0 8999)) < 9000)
    by (cbn; lia).
  assert (H4 : 0 <= wheel_right_ticks (odo (calibrated false 0 8999)) < 9000)
    by (cbn; lia).
  repeat (split; [assumption | ]).
  destruct (odometry_wraps (ctl := scripted) config) as (_ & H & _).
  apply (H position_1 (calibrated false 0 8999) H1 H2 H3 H4).
Defined.

(** The left counter at 8999 steps forward to 0 while the right one steps
    back to 8998. *)
Example odometry_wraps_at_8999 :
  let s' := DMA1_Channel1_IRQHandler config position_1
              (calibrated false 0 8999) in
  wheel_left_ticks (odo s') = 0 /\ wheel_right_ticks (odo s') = 8998.
Proof. vm_compute. split; reflexivity. Qed.

Lemma invalid_hall_code_decoded_as_position_0_witness :
  2000 <= offsetcount (cal (calibrated false 3 100))
  /\ OverrunFlag (calibrated false 3 100) = false
  /\ (hall_code (logical_not (hall_u_pin Left at_limit))
        (logical_not (hall_v_pin Left at_limit))
        (logical_not (hall_w_pin Left at_limit)) = 0
      \/ hall_code (logical_not (hall_u_pin Left at_limit))
           (logical_not (hall_v_pin Left at_limit))
           (logical_not (hall_w_pin Left at_limit)) = 7)
  /\ 0 <= enc_val_previous Left (calibrated false 3 100) <= 5
  /\ 0 <= wheel_left_ticks (odo (calibrated false 3 100)) < 9000
  /\ 0 <= wheel_right_ticks (odo (calibrated false 3 100)) < 9000
  /\ enc_val_previous Left
       (DMA1_Channel1_IRQHandler config at_limit (calibrated false 3 100))
     = 0.
Proof.
  assert (H1 : 2000 <= offsetcount (cal (calibrated false 3 100)))
    by (cbn; lia).
  assert (H2 : OverrunFlag (calibrated false 3 100) = false) by reflexivity.
  assert (H3 : hall_code (logical_not (hall_u_pin Left at_limit))
                 (logical_not (hall_v_pin Left at_limit))
                 (logical_not (hall_w_pin Left at_limit)) = 0
               \/ hall_code (logical_not (hall_u_pin Left at_limit))
                    (logical_not (hall_v_pin Left at_limit))
                    (logical_not (hall_w_pin Left at_limit)) = 7)
    by (left; reflexivity).
  assert (H4 : 0 <= enc_val_previous Left (calibrated false 3 100) <= 5)
    by (cbn; lia).
  assert (H5 : 0 <= wheel_left_ticks (odo (calibrated false 3 100)) < 9000)
    by (cbn; lia).
  assert (H6 : 0 <= wheel_right_ticks (odo (calibrated false 3 100)) < 9000)
    by (cbn; lia).
  repeat (split; [assumption | ]).
  apply (invalid_hall_code_decoded_as_position_0 config at_limit
           (calibrated false 3 100) Left H1 H2 H3 H4 H5 H6).
Defined.

(** C5 as stated fails: with the previous canonical code 1, a tick that
    samples the invalid raw code 0 moves the left counter from 100 to 99 and
    the right one from 100 to 101. *)
Lemma invalid_hall_code_moves_counter :
  let s := calibrated false 1 100 in
  let s' := DMA1_Channel1_IRQHandler config at_limit s in
  hall_code (logical_not (left_hall_u at_limit))
    (logical_not (left_hall_v at_limit))
    (logical_not (left_hall_w at_limit)) = 0
  /\ enc_val_previous_left (odo s) = 1
  /\ wheel_left_ticks (odo s) = 100 /\ wheel_left_ticks (odo s') = 99
  /\ wheel_right_ticks (odo s) = 100 /\ wheel_right_ticks (odo s') = 101
  /\ wheel_left_ticks (odo s') <> wheel_left_ticks (odo s).
Proof.
  vm_compute. repeat split; try reflexivity. discriminate.
Qed.

Lemma interlock_precedes_actuation_witness :
  2000 <= offsetcount (cal (calibrated false 0 0))
  /\ OverrunFlag (calibrated false 0 0) = false
  /\ (forall j b,
        nth_error (tick_events config at_limit (calibrated false 0 0)) j
        = Some b ->
        is_actuation b = true -> (2 < j)%nat).
Proof.
  assert (H1 : 2000 <= offsetcount (cal (calibrated false 0 0)))
    by (cbn; lia).
  assert (H2 : OverrunFlag (calibrated false 0 0) = false) by reflexivity.
  repeat (split; [assumption | ]).
  apply (interlock_precedes_actuation config at_limit (calibrated false 0 0)
           H1 H2).
Defined.

Lemma offsets_frozen_after_calibration_witness :
  2000 <= offsetcount (cal (calibrated false 0 0))
  /\ cal (run config (calibrated false 0 0) [at_limit; position_1])
     = cal (calibrated false 0 0).
Proof.
  assert (H : 2000 <= offsetcount (cal (calibrated false 0 0)))
    by (cbn; lia).
  split; [exact H | ].
  apply (offsets_frozen_after_calibration config (calibrated false 0 0)
           [at_limit; position_1] H).
Defined.

Lemma motor_enable_composes_fault_witness :
  2000 <= offsetcount (cal (faulted false 0 0))
  /\ OverrunFlag (faulted false 0 0) = false
  /\ (b_motEna
        (rtU (rt Left (DMA1_Channel1_IRQHandler config at_limit
                         (faulted false 0 0)))) = 1
      <-> enable at_limit <> 0
          /\ z_errCode (rtY (rt_Left (faulted false 0 0))) = 0
          /\ z_errCode (rtY (rt_Right (faulted false 0 0))) = 0).
Proof.
  assert (H1 : 2000 <= offsetcount (cal (faulted false 0 0))) by (cbn; lia).
  assert (H2 : OverrunFlag (faulted false 0 0) = false) by reflexivity.
  repeat (split; [assumption | ]).
  apply (motor_enable_composes_fault config at_limit (faulted false 0 0)
           Left H1 H2).
Defined.

(** C9 as stated fails: two ticks with the same enable flag, which differ
    in the fault code of the left controller only, hand different enable
    bits to both controllers. *)
Lemma fault_code_changes_motor_enable :
  let ok := DMA1_Channel1_IRQHandler config at_limit (calibrated false 0 0) in
  let ko := DMA1_Channel1_IRQHandler config at_limit (faulted false 0 0) in
  enable at_limit = 1
  /\ z_errCode (rtY (rt_Left (calibrated false 0 0))) = 0
  /\ z_errCode (rtY (rt_Left (faulted false 0 0))) = 1
  /\ b_motEna (rtU (rt_Left ok)) = 1 /\ b_motEna (rtU (rt_Right ok)) = 1
  /\ b_motEna (rtU (rt_Left ko)) = 0 /\ b_motEna (rtU (rt_Right ko)) = 0
  /\ b_motEna (rtU (rt_Left ok)) <> b_motEna (rtU (rt_Left ko)).
Proof.
  vm_compute. repeat split; try reflexivity. discriminate.
Qed.

(** * Further properties of the handler *)

Section Extensions.

Context `{ctl : Controller} (cfg : Config).

#[local] Arguments to_uint8 : simpl never.
#[local] Arguments to_uint16 : simpl never.
#[local] Arguments to_uint32 : simpl never.
#[local] Arguments to_int8 : simpl never.
#[local] Arguments to_int16 : simpl never.
#[local] Arguments logical_not : simpl never.
#[local] Arguments logical_and : simpl never.
#[local] Arguments ABS : simpl never.
#[local] Arguments CLAMP : simpl never.
#[local] Arguments clamp_module_max : simpl never.
#[local] Arguments calc_encoder_ticks : simpl never.
#[local] Arguments encoder : simpl never.
#[local] Arguments duty : simpl never.
#[local] Arguments Z.land : simpl never.
#[local] Arguments Z.lor : simpl never.
#[local] Arguments Z.lxor : simpl never.
#[local] Arguments Z.add : simpl never.
#[local] Arguments Z.modulo : simpl never.
#[local] Arguments Z.div : simpl never.
#[local] Arguments Z.quot : simpl never.
#[local] Arguments Z.shiftr : simpl never.

(** ** The buzzer block as a function *)

Lemma buzzer_step_next (e : env) (s : state) :
  exists s1,
    buzzer_step e s = Continue tt s1
    /\ bat s1 = bat s
    /\ LEFT_TIM s1 = LEFT_TIM s /\ RIGHT_TIM s1 = RIGHT_TIM s
    /\ buz s1 = fst (buzzer_next e (buz s))
    /\ trace s1 = trace s ++ snd (buzzer_next e (buz s)).
Proof.
  unfold buzzer_step, buzzer_next, bind, get, modify, when, ret. cbn.
  repeat match goal with
         | |- context [if ?c then _ else _] => destruct c; cbn
         end.
  all: eexists; split; [reflexivity | ].
  all: repeat split; cbn; rewrite ?app_nil_r; reflexivity.
Qed.

(** The battery and the buzzer across the lines 120-171. *)
Lemma housekeeping_bat_buz (e : env) (s s1 : state) :
  housekeeping cfg e s = Continue tt s1 ->
  bat s1 = (if buzzerTimer (buz s) mod 1000 =? 0
            then bat (filter_battery cfg e s) else bat s)
  /\ buz s1 = fst (buzzer_next e (buz s))
  /\ trace s1
     = trace s ++ Ev_BDTR Left (BDTR (LEFT_TIM s1))
               :: Ev_BDTR Right (BDTR (RIGHT_TIM s1))
               :: snd (buzzer_next e (buz s)).
Proof.
  unfold housekeeping, bind at 1 2 3 4 5, get, modify, when, ret.
  set (s0 := if buzzerTimer (buz s) mod 1000 =? 0
             then filter_battery cfg e s else s).
  assert (Hs0 : forall A (k : state -> outcome A),
             match (if buzzerTimer (buz s) mod 1000 =? 0
                    then fun s2 => Continue tt (filter_battery cfg e s2)
                    else fun s2 => Continue tt s2) s with
             | Continue _ s' => k s'
             | Return s' => Return s'
             end = k s0).
  { intros A k. unfold s0.
    destruct (buzzerTimer (buz s) mod 1000 =? 0); reflexivity. }
  rewrite Hs0. clear Hs0.
  assert (Hf : bat s0 = (if buzzerTimer (buz s) mod 1000 =? 0
                         then bat (filter_battery cfg e s) else bat s)
               /\ buz s0 = buz s /\ trace s0 = trace s).
  { unfold s0. destruct (buzzerTimer (buz s) mod 1000 =? 0);
      repeat split; reflexivity. }
  destruct Hf as (Hbat & Hbuz & Htr).
  unfold bind. rewrite !interlock_eq.
  match goal with
  | |- context [buzzer_step e ?x] =>
      destruct (buzzer_step_next e x)
        as (sb & -> & Fbat & FL & FR & Fbuz & Ftr)
  end.
  rewrite adjust_pwm_margin_eq.
  intros Heq. inversion Heq; subst s1. clear Heq.
  cbn in Fbuz, Ftr, Fbat, FL, FR |- *.
  rewrite Fbat, Fbuz, Ftr, FL, FR, Hbuz, Htr. cbn.
  rewrite <- !app_assoc.
  split; [exact Hbat | split; reflexivity].
Qed.

(** The first half of a tick after calibration, with its run. *)
Lemma handler_housekeeping (e : env) (s : state) :
  2000 <= offsetcount (cal s) ->
  exists s1,
    housekeeping cfg e (emit Ev_IFCR s) = Continue tt s1
    /\ housekeeping_post cfg e (emit Ev_IFCR s) s1
    /\ DMA1_Channel1_IRQHandler cfg e s
       = if OverrunFlag s then s1
         else call (motor_control_section cfg e) s1.
Proof.
  intros Hcal.
  destruct (housekeeping_spec cfg e (emit Ev_IFCR s)) as (s1 & Hrun & Hpost).
  destruct (handler_calibrated cfg e s Hcal) as (s1' & Hpost' & Heq).
  exists s1. split; [exact Hrun | split; [exact Hpost | ]].
  unfold DMA1_Channel1_IRQHandler, call, DMA1_Channel1_IRQHandler_body.
  unfold bind at 1 2 3, modify at 1, get at 1, when at 1. cbn [cal emit].
  destruct (Z.ltb_spec (offsetcount (cal s)) 2000) as [Hlt | _]; [lia | ].
  unfold ret, bind. rewrite Hrun.
  pose proof (hk_OverrunFlag _ _ _ _ Hpost) as Hov. cbn in Hov.
  unfold motor_control_section at 1. unfold bind at 1 2, get, when.
  rewrite Hov. destruct (OverrunFlag s) eqn:Hflag.
  - reflexivity.
  - unfold call, ret. unfold motor_control_section, bind, get, when, ret.
    rewrite Hov. reflexivity.
Qed.

(** The battery, the buzzer and the buzzer's pin writes of a tick after
    calibration. *)
Lemma tick_bat_buz (e : env) (s : state) :
  2000 <= offsetcount (cal s) ->
  let s' := DMA1_Channel1_IRQHandler cfg e s in
  bat s' = (if buzzerTimer (buz s) mod 1000 =? 0
            then bat (filter_battery cfg e s) else bat s)
  /\ buz s' = fst (buzzer_next e (buz s))
  /\ filter is_buzzer (tick_events cfg e s) = snd (buzzer_next e (buz s)).
Proof.
  intros Hcal s'. subst s'.
  destruct (handler_housekeeping e s Hcal) as (s1 & Hrun & Hpost & Heq).
  destruct (housekeeping_bat_buz e _ s1 Hrun) as (Hbat & Hbuz & Htr).
  cbn in Hbat, Hbuz, Htr.
  assert (Hsnd : filter is_buzzer (snd (buzzer_next e (buz s)))
                 = snd (buzzer_next e (buz s))).
  { unfold buzzer_next.
    repeat match goal with
           | |- context [if ?c then _ else _] => destruct c; cbn
           end; reflexivity. }
  destruct (OverrunFlag s) eqn:Hflag.
  - rewrite Heq. split; [exact Hbat | split; [exact Hbuz | ]].
    rewrite (tick_events_eq cfg e s
               (Ev_IFCR :: Ev_BDTR Left (BDTR (LEFT_TIM s1))
                :: Ev_BDTR Right (BDTR (RIGHT_TIM s1))
                :: snd (buzzer_next e (buz s)))).
    + cbn. exact Hsnd.
    + rewrite Heq, Htr, <- app_assoc. reflexivity.
  - assert (Hov : OverrunFlag s1 = false).
    { rewrite (hk_OverrunFlag _ _ _ _ Hpost). exact Hflag. }
    destruct (control_spec cfg e s1 Hov) as (s2 & Hrun2 & Hc).
    assert (Hs2 : DMA1_Channel1_IRQHandler cfg e s = s2).
    { rewrite Heq. unfold call. rewrite Hrun2. reflexivity. }
    rewrite Hs2.
    rewrite (mc_bat _ _ _ _ Hc), (mc_buz _ _ _ _ Hc).
    split; [exact Hbat | split; [exact Hbuz | ]].
    rewrite (tick_events_eq cfg e s
               (Ev_IFCR :: Ev_BDTR Left (BDTR (LEFT_TIM s1))
                :: Ev_BDTR Right (BDTR (RIGHT_TIM s1))
                :: snd (buzzer_next e (buz s))
                   ++ control_events cfg Left s2
                   ++ control_events cfg Right s2)).
    + cbn. rewrite filter_app, filter_app, Hsnd.
      unfold control_events, MOTOR_ENA.
      destruct (MOTOR_LEFT_ENA cfg), (MOTOR_RIGHT_ENA cfg); cbn;
        rewrite ?app_nil_r; reflexivity.
    + rewrite Hs2, (mc_trace _ _ _ _ Hc), Htr.
      rewrite <- !app_assoc. reflexivity.
Qed.


(** ** Traces of ticks and of runs *)

Lemma tick_trace (e : env) (s : state) :
  trace (DMA1_Channel1_IRQHandler cfg e s) = trace s ++ tick_events cfg e s.
Proof.
  assert (H : exists evs,
             trace (DMA1_Channel1_IRQHandler cfg e s) = trace s ++ evs).
  { destruct (Z_lt_ge_dec (offsetcount (cal s)) 2000) as [Hcal | Hcal].
    - rewrite (handler_calibrating cfg e s Hcal). eexists. reflexivity.
    - apply Z.ge_le in Hcal.
      destruct (OverrunFlag s) eqn:Hflag.
      + pose proof (tick_overrun cfg e s Hcal Hflag) as Hp.
        destruct (hk_trace _ _ _ _ Hp) as (mid & -> & _).
        cbn. rewrite <- app_assoc. eexists. reflexivity.
      + destruct (tick_spec cfg e s Hcal Hflag) as (s1 & Hp & Hc).
        rewrite (mc_trace _ _ _ _ Hc).
        destruct (hk_trace _ _ _ _ Hp) as (mid & -> & _).
        cbn. rewrite <- !app_assoc. eexists. reflexivity. }
  destruct H as (evs & H).
  rewrite (tick_events_eq cfg e s evs H). exact H.
Qed.

Lemma run_trace (es : list env) (s : state) :
  trace (run cfg s es) = trace s ++ run_events cfg s es.
Proof.
  assert (H : exists evs, trace (run cfg s es) = trace s ++ evs).
  { revert s. induction es as [| e es IH]; intros s; cbn.
    - exists []. rewrite app_nil_r. reflexivity.
    - destruct (IH (DMA1_Channel1_IRQHandler cfg e s)) as (evs & ->).
      rewrite tick_trace, <- app_assoc. eexists. reflexivity. }
  destruct H as (evs & H).
  unfold run_events. rewrite H, skipn_length_app. reflexivity.
Qed.

Lemma run_events_nil (s : state) : run_events cfg s [] = [].
Proof.
  unfold run_events. cbn.
  rewrite <- (app_nil_r (trace s)) at 2. apply skipn_length_app.
Qed.

Lemma run_events_cons (e : env) (es : list env) (s : state) :
  run_events cfg s (e :: es)
  = tick_events cfg e s
    ++ run_events cfg (DMA1_Channel1_IRQHandler cfg e s) es.
Proof.
  unfold run_events at 1. cbn [run].
  rewrite run_trace, tick_trace, <- app_assoc.
  apply skipn_length_app.
Qed.

(** ** Calibration *)

(** A tick of the calibration touches the calibration record only. *)
Lemma calibrating_tick_frame (e : env) (s : state) :
  offsetcount (cal s) < 2000 ->
  let s' := DMA1_Channel1_IRQHandler cfg e s in
  bat s' = bat s /\ cur s' = cur s
  /\ LEFT_TIM s' = LEFT_TIM s /\ RIGHT_TIM s' = RIGHT_TIM s
  /\ buz s' = buz s /\ pwm_margin s' = pwm_margin s
  /\ OverrunFlag s' = OverrunFlag s /\ enableFin s' = enableFin s
  /\ rt_Left s' = rt_Left s /\ rt_Right s' = rt_Right s
  /\ odo s' = odo s.
Proof.
  intros Hcal s'. subst s'. rewrite (handler_calibrating cfg e s Hcal).
  cbn. repeat split; reflexivity.
Qed.

(** The counter, the buzzer, the overrun flag and the events of a run
    inside the calibration window. *)
Lemma calibration_window_run (es : list env) (s : state) :
  0 <= offsetcount (cal s) ->
  offsetcount (cal s) + Z.of_nat (length es) <= 2000 ->
  offsetcount (cal (run cfg s es))
  = offsetcount (cal s) + Z.of_nat (length es)
  /\ buz (run cfg s es) = buz s
  /\ OverrunFlag (run cfg s es) = OverrunFlag s
  /\ run_events cfg s es = repeat Ev_IFCR (length es).
Proof.
  revert s. induction es as [| e es IH]; intros s H0 Hn.
  - cbn [run length repeat]. rewrite run_events_nil.
    repeat split. cbn. lia.
  - cbn [length] in Hn. rewrite Nat2Z.inj_succ in Hn.
    assert (Hcal : offsetcount (cal s) < 2000) by lia.
    destruct (calibrating_tick_frame e s Hcal)
      as (_ & _ & _ & _ & Fb & _ & Fo & _).
    assert (Hc : offsetcount (cal (DMA1_Channel1_IRQHandler cfg e s))
                 = offsetcount (cal s) + 1).
    { rewrite (handler_calibrating cfg e s Hcal). cbn.
      apply to_uint16_id. lia. }
    destruct (IH (DMA1_Channel1_IRQHandler cfg e s)) as (G0 & Gb & Go & Ge);
      [lia | lia | ].
    cbn [run length repeat]. rewrite run_events_cons, Ge.
    rewrite (tick_events_calibrating cfg e s Hcal).
    rewrite G0, Gb, Go, Hc, Fb, Fo, Nat2Z.inj_succ.
    repeat split. lia.
Qed.

(** X1: a run of [n] ticks that fits into the calibration window changes
    nothing but the calibration record, whatever the enable flag, the
    currents and the hall pins: the battery value, the currents, both
    timers (interlock bit and compare registers), the buzzer, the margin,
    the overrun flag, the controllers and the odometry keep their values,
    and the only events are the [n] interrupt acknowledges. *)
Theorem calibration_window_is_inert (es : list env) (s : state) :
  0 <= offsetcount (cal s) ->
  offsetcount (cal s) + Z.of_nat (length es) <= 2000 ->
  let s' := run cfg s es in
  offsetcount (cal s') = offsetcount (cal s) + Z.of_nat (length es)
  /\ bat s' = bat s /\ cur s' = cur s
  /\ LEFT_TIM s' = LEFT_TIM s /\ RIGHT_TIM s' = RIGHT_TIM s
  /\ buz s' = buz s /\ pwm_margin s' = pwm_margin s
  /\ OverrunFlag s' = OverrunFlag s /\ enableFin s' = enableFin s
  /\ rt_Left s' = rt_Left s /\ rt_Right s' = rt_Right s
  /\ odo s' = odo s
  /\ run_events cfg s es = repeat Ev_IFCR (length es).
Proof.
  revert s. induction es as [| e es IH]; intros s H0 Hn s'; subst s'.
  - cbn [run length repeat]. rewrite run_events_nil.
    repeat split; try reflexivity. cbn. lia.
  - cbn [length] in Hn. rewrite Nat2Z.inj_succ in Hn.
    assert (Hcal : offsetcount (cal s) < 2000) by lia.
    destruct (calibrating_tick_frame e s Hcal)
      as (F1 & F2 & F3 & F4 & F5 & F6 & F7 & F8 & F9 & F10 & F11).
    assert (Hc : offsetcount (cal (DMA1_Channel1_IRQHandler cfg e s))
                 = offsetcount (cal s) + 1).
    { rewrite (handler_calibrating cfg e s Hcal). cbn.
      apply to_uint16_id. lia. }
    destruct (IH (DMA1_Channel1_IRQHandler cfg e s))
      as (G0 & G1 & G2 & G3 & G4 & G5 & G6 & G7 & G8 & G9 & G10 & G11 & G12);
      [lia | lia | ].
    cbn [run length repeat]. rewrite run_events_cons, G12.
    rewrite (tick_events_calibrating cfg e s Hcal).
    rewrite G0, G1, G2, G3, G4, G5, G6, G7, G8, G9, G10, G11, Hc.
    rewrite Nat2Z.inj_succ.
    repeat split; try assumption; try reflexivity. lia.
Qed.


Lemma run_app (es1 es2 : list env) (s : state) :
  run cfg s (es1 ++ es2) = run cfg (run cfg s es1) es2.
Proof.
  revert s. induction es1 as [| e es1 IH]; intros s; cbn;
    [reflexivity | apply IH].
Qed.

Lemma cal_frozen_run (es : list env) (s : state) :
  2000 <= offsetcount (cal s) -> cal (run cfg s es) = cal s.
Proof.
  revert s. induction es as [| e es IH]; intros s Hcal; cbn.
  - reflexivity.
  - destruct (tick_housekeeping cfg e s Hcal) as (Hc & _).
    rewrite IH by (rewrite Hc; exact Hcal). exact Hc.
Qed.

(** X2: after reset the calibration lasts exactly 2000 ticks: the sample
    counter is the number of ticks up to 2000, and the offsets in force
    from then on are those left by the first 2000 ticks, however many
    ticks follow. *)
Theorem calibration_lasts_2000_ticks tl tr pin ml mr (es : list env) :
  let s0 := initial_state cfg tl tr pin ml mr in
  offsetcount (cal (run cfg s0 es)) = Z.min 2000 (Z.of_nat (length es))
  /\ (offsetcount (cal (run cfg s0 es)) < 2000 <-> (length es < 2000)%nat)
  /\ ((2000 <= length es)%nat ->
      cal (run cfg s0 es) = cal (run cfg s0 (firstn 2000 es))).
Proof.
  intros s0.
  assert (H : forall l, offsetcount (cal (run cfg s0 l))
                        = Z.min 2000 (Z.of_nat (length l))).
  { intros l. rewrite (calibration_completes cfg l s0) by (cbn; lia).
    cbn. reflexivity. }
  split; [apply H | split].
  - rewrite H. lia.
  - intros Hlen.
    rewrite <- (firstn_skipn 2000 es) at 1.
    rewrite run_app. apply cal_frozen_run.
    rewrite H, length_firstn. lia.
Qed.

Lemma average_step (o r : Z) :
  0 <= o <= 32767 -> 0 <= r <= 32767 ->
  to_int16 ((r + o) ÷ 2) = (r + o) / 2
  /\ Z.min o r <= (r + o) / 2 <= Z.max o r
  /\ Z.abs ((r + o) / 2 - r) <= (Z.abs (o - r) + 1) / 2.
Proof.
  intros Ho Hr.
  rewrite Z.quot_div_nonneg by lia.
  split; [ | split].
  - apply to_int16_id. Z.div_mod_to_equations. lia.
  - Z.div_mod_to_equations. lia.
  - Z.div_mod_to_equations. lia.
Qed.

Lemma calibrating_offset (e : env) (s : state) (ch : adc_channel) :
  offsetcount (cal s) < 2000 ->
  offset ch (cal (DMA1_Channel1_IRQHandler cfg e s))
  = to_int16 ((sample ch (adc_buffer e) + offset ch (cal s)) ÷ 2).
Proof.
  intros Hcal. rewrite (handler_calibrating cfg e s Hcal).
  destruct ch; reflexivity.
Qed.

(** X3: a tick of the calibration replaces the offset of each channel by the
    mean, rounded down, of the offset and of the raw sample (both taken in
    the positive [int16_t] range): the new offset lies between the two and
    its distance to the sample is at most half the old one, rounded up. *)
Theorem calibration_tick_averages
    (e : env) (s : state) (ch : adc_channel) :
  offsetcount (cal s) < 2000 ->
  0 <= offset ch (cal s) <= 32767 ->
  0 <= sample ch (adc_buffer e) <= 32767 ->
  let o := offset ch (cal s) in
  let r := sample ch (adc_buffer e) in
  let o' := offset ch (cal (DMA1_Channel1_IRQHandler cfg e s)) in
  o' = (r + o) / 2
  /\ Z.min o r <= o' <= Z.max o r
  /\ Z.abs (o' - r) <= (Z.abs (o - r) + 1) / 2.
Proof.
  intros Hcal Ho Hr o r o'. subst o'.
  rewrite (calibrating_offset e s ch Hcal). fold o r.
  destruct (average_step o r Ho Hr) as (-> & Hb & Hd).
  split; [reflexivity | split; assumption].
Qed.

Lemma ceil_half_shrinks (d n : Z) :
  0 <= d -> 0 <= n ->
  ((d + 1) / 2 + 2 ^ n - 1) / 2 ^ n <= (d + 2 ^ (n + 1) - 1) / 2 ^ (n + 1).
Proof.
  intros Hd Hn.
  assert (Hp : 0 < 2 ^ n) by (apply Z.pow_pos_nonneg; lia).
  replace (2 ^ (n + 1)) with (2 * 2 ^ n)
    by (rewrite Z.pow_add_r by lia; lia).
  rewrite <- (Z.div_mul_cancel_l ((d + 1) / 2 + 2 ^ n - 1) (2 ^ n) 2)
    by lia.
  apply Z.div_le_mono; [lia | ].
  Z.div_mod_to_equations. lia.
Qed.

(** The distance of an offset to a constant sample over a run inside the
    calibration window. *)
Lemma offset_converges_run (es : list env) (s : state) (ch : adc_channel)
    (r : Z) :
  0 <= offsetcount (cal s) ->
  offsetcount (cal s) + Z.of_nat (length es) <= 2000 ->
  Forall (fun e => sample ch (adc_buffer e) = r) es ->
  0 <= r <= 32767 ->
  0 <= offset ch (cal s) <= 32767 ->
  0 <= offset ch (cal (run cfg s es)) <= 32767
  /\ Z.abs (offset ch (cal (run cfg s es)) - r)
     <= (Z.abs (offset ch (cal s) - r) + 2 ^ Z.of_nat (length es) - 1)
        / 2 ^ Z.of_nat (length es).
Proof.
  revert s. induction es as [| e es IH]; intros s H0 Hn Hall Hr Ho.
  - cbn [run length]. split; [exact Ho | ].
    change (2 ^ Z.of_nat 0) with 1. rewrite Z.div_1_r. lia.
  - cbn [length] in Hn |- *. rewrite Nat2Z.inj_succ in Hn |- *.
    inversion Hall as [| e' es' He Hes]; subst.
    assert (Hcal : offsetcount (cal s) < 2000) by lia.
    assert (Hc : offsetcount (cal (DMA1_Channel1_IRQHandler cfg e s))
                 = offsetcount (cal s) + 1).
    { rewrite (handler_calibrating cfg e s Hcal). cbn.
      apply to_uint16_id. lia. }
    pose proof (calibrating_offset e s ch Hcal) as Hoff.
    destruct (average_step (offset ch (cal s)) (sample ch (adc_buffer e)))
      as (Hid & Hb & Hd); [lia | lia | ].
    rewrite Hid in Hoff.
    cbn [run].
    destruct (IH (DMA1_Channel1_IRQHandler cfg e s)) as (IH1 & IH2);
      [lia | lia | exact Hes | lia | rewrite Hoff; lia | ].
    split; [exact IH1 | ].
    eapply Z.le_trans; [exact IH2 | ].
    rewrite Hoff.
    set (d := Z.abs (offset ch (cal s) - sample ch (adc_buffer e))) in *.
    set (n := Z.of_nat (length es)) in *.
    assert (Hp : 0 < 2 ^ n) by (apply Z.pow_pos_nonneg; lia).
    eapply Z.le_trans; [ | apply ceil_half_shrinks; lia].
    apply Z.div_le_mono; lia.
Qed.

(** X4: after reset, a calibration of at least 12 ticks (it has 2000) on a
    constant 12-bit sample leaves the offset of that channel within one
    count of the sample. *)
Theorem calibration_converges tl tr pin ml mr (es : list env)
    (ch : adc_channel) (r : Z) :
  (12 <= length es <= 2000)%nat ->
  Forall (fun e => sample ch (adc_buffer e) = r) es ->
  0 <= r <= 4095 ->
  Z.abs (offset ch (cal (run cfg (initial_state cfg tl tr pin ml mr) es)) - r)
  <= 1.
Proof.
  intros Hlen Hall Hr.
  set (s0 := initial_state cfg tl tr pin ml mr).
  assert (Ho : offset ch (cal s0) = 2000) by (destruct ch; reflexivity).
  destruct (offset_converges_run es s0 ch r) as (_ & H);
    [cbn; lia | cbn; lia | exact Hall | lia | rewrite Ho; lia | ].
  eapply Z.le_trans; [exact H | ].
  rewrite Ho.
  set (n := Z.of_nat (length es)) in *.
  assert (Hn : 12 <= n) by lia.
  assert (Hp : 2 ^ 12 <= 2 ^ n) by (apply Z.pow_le_mono_r; lia).
  change (2 ^ 12) with 4096 in Hp.
  apply Z.lt_succ_r. apply Z.div_lt_upper_bound; lia.
Qed.


(** ** Battery filter and buzzer *)

(** X5: after calibration the battery filter runs on the ticks that find
    [buzzerTimer], not yet incremented, at a multiple of 1000: the filter
    state becomes [filtLowPass32] of the raw sample and [batVoltage] its
    upper 16 bits; on every other tick neither changes. *)
Theorem battery_filter_decimated (e : env) (s : state) :
  2000 <= offsetcount (cal s) ->
  let s' := DMA1_Channel1_IRQHandler cfg e s in
  (buzzerTimer (buz s) mod 1000 = 0 ->
   batVoltageFixdt (bat s')
   = filtLowPass32 cfg (batt1 (adc_buffer e)) (BAT_FILT_COEF cfg)
       (batVoltageFixdt (bat s))
   /\ batVoltage (bat s')
      = to_int16 (Z.shiftr (batVoltageFixdt (bat s')) 16))
  /\ (buzzerTimer (buz s) mod 1000 <> 0 -> bat s' = bat s).
Proof.
  intros Hcal s'. subst s'.
  destruct (tick_bat_buz e s Hcal) as (Hbat & _).
  rewrite Hbat. split; intros Hm.
  - rewrite Hm. cbn. split; reflexivity.
  - destruct (Z.eqb_spec (buzzerTimer (buz s) mod 1000) 0);
      [contradiction | reflexivity].
Qed.

Lemma to_uint32_add_l (a b : Z) :
  to_uint32 (to_uint32 a + b) = to_uint32 (a + b).
Proof. unfold to_uint32. apply Zplus_mod_idemp_l. Qed.

Lemma buzzerTimer_run (es : list env) (s : state) :
  2000 <= offsetcount (cal s) ->
  buzzerTimer (buz (run cfg s es))
  = match es with
    | [] => buzzerTimer (buz s)
    | _ => to_uint32 (buzzerTimer (buz s) + Z.of_nat (length es))
    end.
Proof.
  revert s. induction es as [| e es IH]; intros s Hcal; [reflexivity | ].
  cbn [run].
  destruct (tick_housekeeping cfg e s Hcal) as (Hc & _ & _ & _ & Ht).
  rewrite IH by (rewrite Hc; exact Hcal).
  destruct es as [| e' es'].
  - rewrite Ht. reflexivity.
  - rewrite Ht, to_uint32_add_l. f_equal.
    cbn [length]. rewrite !Nat2Z.inj_succ. lia.
Qed.

(** X6: [buzzerTimer] counts the ticks after the calibration, modulo 2^32,
    overrun or not: after [n] ticks from reset it is 0 while [n <= 2000]
    and [n - 2000] (mod 2^32) afterwards. *)
Theorem buzzerTimer_counts_ticks tl tr pin ml mr (es : list env) :
  buzzerTimer (buz (run cfg (initial_state cfg tl tr pin ml mr) es))
  = to_uint32 (Z.max 0 (Z.of_nat (length es) - 2000)).
Proof.
  set (s0 := initial_state cfg tl tr pin ml mr).
  assert (H0 : offsetcount (cal s0) = 0) by reflexivity.
  destruct (Nat.le_gt_cases (length es) 2000) as [Hle | Hgt].
  - destruct (calibration_window_run es s0) as (_ & Hb & _);
      [lia | lia | ].
    rewrite Hb. rewrite Z.max_l by lia. reflexivity.
  - rewrite <- (firstn_skipn 2000 es) at 1. rewrite run_app.
    assert (Hlen : length (firstn 2000 es) = 2000%nat)
      by (rewrite length_firstn; lia).
    destruct (calibration_window_run (firstn 2000 es) s0)
      as (Hc & Hb & _); [lia | rewrite Hlen; lia | ].
    rewrite buzzerTimer_run by (rewrite Hc, Hlen; lia).
    rewrite Hb.
    assert (Hsk : length (skipn 2000 es) = (length es - 2000)%nat)
      by apply length_skipn.
    destruct (skipn 2000 es) as [| e' l'] eqn:Hl; [cbn in Hsk; lia | ].
    rewrite Hsk. f_equal.
    change (buzzerTimer (buz s0)) with 0. lia.
Qed.

Lemma buzzer_next_off (e : env) (b : buzzer) :
  buzzerFreq e = 0 ->
  buzzer_next e b
  = if negb (buzzerPrev b =? 0)
    then ({| buzzerTimer := to_uint32 (buzzerTimer b + 1); buzzerPrev := 0;
             buzzerIdx := buzzerIdx b; BUZZER_PIN := false |},
          [Ev_buzzer false])
    else ({| buzzerTimer := to_uint32 (buzzerTimer b + 1);
             buzzerPrev := buzzerPrev b; buzzerIdx := buzzerIdx b;
             BUZZER_PIN := BUZZER_PIN b |}, []).
Proof. intros Hf. unfold buzzer_next. rewrite Hf. reflexivity. Qed.

Lemma buzzer_off_tick (e : env) (s : state) :
  2000 <= offsetcount (cal s) ->
  buzzerFreq e = 0 ->
  let s' := DMA1_Channel1_IRQHandler cfg e s in
  buzzerPrev (buz s') = 0
  /\ buzzerIdx (buz s') = buzzerIdx (buz s)
  /\ BUZZER_PIN (buz s')
     = (if buzzerPrev (buz s) =? 0 then BUZZER_PIN (buz s) else false)
  /\ filter is_buzzer (tick_events cfg e s)
     = if buzzerPrev (buz s) =? 0 then [] else [Ev_buzzer false].
Proof.
  intros Hcal Hf s'. subst s'.
  destruct (tick_bat_buz e s Hcal) as (_ & Hbuz & Hev).
  rewrite Hbuz, Hev, (buzzer_next_off e (buz s) Hf).
  destruct (Z.eqb_spec (buzzerPrev (buz s)) 0) as [H0 | H0]; cbn;
    repeat split; try reflexivity. exact H0.
Qed.

(** X7: with the buzzer switched off ([buzzerFreq] = 0) for a whole run of
    ticks after calibration, the pin is driven low exactly once, on the
    first tick, if the buzzer was sounding ([buzzerPrev] nonzero), and is
    never written if it was not; after the first tick [buzzerPrev] is 0 and
    the pin keeps the level that tick left. *)
Theorem buzzer_silenced_once (es : list env) (s : state) :
  2000 <= offsetcount (cal s) ->
  Forall (fun e => buzzerFreq e = 0) es ->
  filter is_buzzer (run_events cfg s es)
  = (if (buzzerPrev (buz s) =? 0) || (length es =? 0)%nat
     then [] else [Ev_buzzer false])
  /\ (es <> [] ->
      buzzerPrev (buz (run cfg s es)) = 0
      /\ BUZZER_PIN (buz (run cfg s es))
         = if buzzerPrev (buz s) =? 0 then BUZZER_PIN (buz s) else false).
Proof.
  revert s. induction es as [| e es IH]; intros s Hcal Hall.
  - rewrite run_events_nil. cbn. rewrite orb_true_r.
    split; [reflexivity | intros H; contradiction].
  - inversion Hall as [| e' es' He Hes]; subst.
    destruct (buzzer_off_tick e s Hcal He) as (Hp & Hi & Hpin & Hev).
    destruct (tick_housekeeping cfg e s Hcal) as (Hc & _).
    destruct (IH (DMA1_Channel1_IRQHandler cfg e s)) as (IH1 & IH2);
      [rewrite Hc; exact Hcal | exact Hes | ].
    rewrite Hp in IH1, IH2. cbn in IH1.
    rewrite run_events_cons, filter_app, Hev, IH1, app_nil_r.
    cbn [run length Nat.eqb]. rewrite orb_false_r.
    split; [reflexivity | intros _].
    destruct es as [| e2 es2].
    + cbn [run]. split; [exact Hp | exact Hpin].
    + destruct IH2 as (IHp & IHpin); [discriminate | ].
      split; [exact IHp | ]. rewrite IHpin. cbn. exact Hpin.
Qed.

(** X8: on a tick after calibration with the buzzer on and the pattern gate
    open, the pin is toggled exactly when the incremented timer is a
    multiple of [buzzerFreq] and the beep index is within [buzzerCount] (or
    [buzzerCount] is 0); otherwise it is not written.  A tick that finds
    [buzzerPrev] at 0 sets it to 1 and steps the beep index, which restarts
    at 1 beyond [buzzerCount + 2]; any other tick keeps both. *)
Theorem buzzer_toggle_gate (e : env) (s : state) :
  2000 <= offsetcount (cal s) ->
  buzzerFreq e <> 0 ->
  let t := to_uint32 (buzzerTimer (buz s) + 1) in
  (t / 5000) mod to_uint32 (buzzerPattern e + 1) = 0 ->
  let s' := DMA1_Channel1_IRQHandler cfg e s in
  buzzerTimer (buz s') = t
  /\ (if (t mod to_uint32 (buzzerFreq e) =? 0)
         && ((buzzerIdx (buz s') <=? buzzerCount e) || (buzzerCount e =? 0))
      then BUZZER_PIN (buz s') = negb (BUZZER_PIN (buz s))
           /\ filter is_buzzer (tick_events cfg e s)
              = [Ev_buzzer (negb (BUZZER_PIN (buz s)))]
      else BUZZER_PIN (buz s') = BUZZER_PIN (buz s)
           /\ filter is_buzzer (tick_events cfg e s) = [])
  /\ (buzzerPrev (buz s) = 0 ->
      buzzerPrev (buz s') = 1
      /\ buzzerIdx (buz s')
         = if to_uint8 (buzzerIdx (buz s) + 1) >? buzzerCount e + 2
           then 1 else to_uint8 (buzzerIdx (buz s) + 1))
  /\ (buzzerPrev (buz s) <> 0 ->
      buzzerPrev (buz s') = buzzerPrev (buz s)
      /\ buzzerIdx (buz s') = buzzerIdx (buz s)).
Proof.
  intros Hcal Hf t Hgate s'. subst s'.
  destruct (tick_bat_buz e s Hcal) as (_ & Hbuz & Hev).
  rewrite Hbuz, Hev. unfold buzzer_next. fold t.
  destruct (Z.eqb_spec (buzzerFreq e) 0) as [H0 | _]; [contradiction | ].
  rewrite Hgate. cbn [negb andb Z.eqb].
  destruct (Z.eqb_spec (buzzerPrev (buz s)) 0) as [Hp | Hp];
    match goal with
    | |- context [if ?c then (_, _) else (_, _)] => destruct c eqn:Hc
    end; cbn; rewrite ?Hc; repeat split; try reflexivity;
    first [contradiction | congruence].
Qed.


(** ** The overrun flag over a run *)

Lemma flag_clear_step (e : env) (s : state) :
  OverrunFlag s = false ->
  OverrunFlag (DMA1_Channel1_IRQHandler cfg e s) = false.
Proof.
  intros Hflag.
  destruct (Z_lt_ge_dec (offsetcount (cal s)) 2000) as [Hcal | Hcal].
  - destruct (calibrating_tick_frame e s Hcal)
      as (_ & _ & _ & _ & _ & _ & H & _).
    rewrite H. exact Hflag.
  - apply Z.ge_le in Hcal.
    destruct (tick_spec cfg e s Hcal Hflag) as (s1 & _ & Hc).
    exact (mc_OverrunFlag _ _ _ _ Hc).
Qed.

Lemma flag_clear_run (es : list env) (s : state) :
  OverrunFlag s = false -> OverrunFlag (run cfg s es) = false.
Proof.
  revert s. induction es as [| e es IH]; intros s Hflag; cbn;
    [exact Hflag | apply IH, flag_clear_step, Hflag].
Qed.

Lemma duty_writes_control (e : env) (s : state) :
  2000 <= offsetcount (cal s) ->
  OverrunFlag s = false ->
  length (filter is_duty_write (tick_events cfg e s)) = 6%nat.
Proof.
  intros Hcal Hflag.
  destruct (tick_events_control cfg e s Hcal Hflag) as (mid & -> & Hmid).
  cbn. rewrite !filter_app.
  assert (Hm : filter is_duty_write mid = []).
  { clear - Hmid. induction mid as [| ev mid IH]; [reflexivity | ].
    cbn in Hmid. apply andb_true_iff in Hmid. destruct Hmid as [Hev Hmid].
    destruct ev; try discriminate Hev. cbn. exact (IH Hmid). }
  rewrite Hm. unfold control_events, MOTOR_ENA.
  destruct (MOTOR_LEFT_ENA cfg), (MOTOR_RIGHT_ENA cfg); reflexivity.
Qed.

Lemma duty_writes_run (es : list env) (s : state) :
  2000 <= offsetcount (cal s) ->
  OverrunFlag s = false ->
  length (filter is_duty_write (run_events cfg s es))
  = (6 * length es)%nat.
Proof.
  revert s. induction es as [| e es IH]; intros s Hcal Hflag.
  - rewrite run_events_nil. reflexivity.
  - rewrite run_events_cons, filter_app, length_app.
    rewrite (duty_writes_control e s Hcal Hflag).
    destruct (tick_housekeeping cfg e s Hcal) as (Hc & _).
    rewrite IH; [cbn [length]; lia | rewrite Hc; exact Hcal
                | apply flag_clear_step, Hflag].
Qed.

(** X9: in a run from reset the overrun flag is clear after every tick, so
    no tick after the calibration is skipped: the run writes six duties per
    tick after the first 2000 and none before. *)
Theorem every_tick_after_calibration_actuates tl tr pin ml mr
    (es : list env) :
  let s0 := initial_state cfg tl tr pin ml mr in
  OverrunFlag (run cfg s0 es) = false
  /\ length (filter is_duty_write (run_events cfg s0 es))
     = (6 * (length es - 2000))%nat.
Proof.
  intros s0.
  split; [apply flag_clear_run; reflexivity | ].
  assert (H0 : offsetcount (cal s0) = 0) by reflexivity.
  destruct (Nat.le_gt_cases (length es) 2000) as [Hle | Hgt].
  - destruct (calibration_window_run es s0) as (_ & _ & _ & H);
      [lia | lia | ].
    rewrite H.
    replace (length es - 2000)%nat with 0%nat by lia.
    clear. induction (length es) as [| n IH]; [reflexivity | exact IH].
  - assert (Hlen : length (firstn 2000 es) = 2000%nat)
      by (rewrite length_firstn; lia).
    assert (Hev : run_events cfg s0 es
                  = run_events cfg s0 (firstn 2000 es)
                    ++ run_events cfg (run cfg s0 (firstn 2000 es))
                         (skipn 2000 es)).
    { unfold run_events at 1.
      rewrite <- (firstn_skipn 2000 es) at 1.
      rewrite run_app, run_trace, run_trace, <- app_assoc.
      apply skipn_length_app. }
    destruct (calibration_window_run (firstn 2000 es) s0)
      as (Hc & _ & Hov & H); [lia | rewrite Hlen; lia | ].
    rewrite Hev, filter_app, length_app, H.
    rewrite duty_writes_run;
      [ | rewrite Hc, Hlen; lia | rewrite Hov; reflexivity].
    rewrite length_skipn.
    assert (Hz : length (filter is_duty_write
                           (repeat Ev_IFCR (length (firstn 2000 es))))
                 = 0%nat).
    { clear. induction (length (firstn 2000 es)) as [| n IH];
        [reflexivity | exact IH]. }
    rewrite Hz. reflexivity.
Qed.




(** ** A motor left out of the build *)

Lemma disabled_motor_step (e : env) (s : state) (m : motor_side) :
  MOTOR_ENA cfg m = false ->
  let s' := DMA1_Channel1_IRQHandler cfg e s in
  rtY (rt m s') = rtY (rt m s) /\ rtDW (rt m s') = rtDW (rt m s)
  /\ ~ In (Ev_step m) (tick_events cfg e s).
Proof.
  intros Hena s'. subst s'.
  destruct (Z_lt_ge_dec (offsetcount (cal s)) 2000) as [Hcal | Hcal].
  - rewrite (tick_events_calibrating cfg e s Hcal).
    destruct (calibrating_tick_frame e s Hcal)
      as (_ & _ & _ & _ & _ & _ & _ & _ & HrL & HrR & _).
    repeat split.
    + destruct m; cbn; rewrite ?HrL, ?HrR; reflexivity.
    + destruct m; cbn; rewrite ?HrL, ?HrR; reflexivity.
    + intros [H | []]. discriminate H.
  - apply Z.ge_le in Hcal.
    destruct (OverrunFlag s) eqn:Hflag.
    + pose proof (tick_overrun cfg e s Hcal Hflag) as Hp.
      destruct (tick_events_overrun cfg e s Hcal Hflag) as (mid & -> & Hmid).
      pose proof (hk_rt _ _ _ _ Hp m) as Hr.
      assert (Hr' : rt m (DMA1_Channel1_IRQHandler cfg e s) = rt m s)
        by (rewrite Hr; destruct m; reflexivity).
      rewrite Hr'. repeat split.
      intros [H | [H | [H | H]]]; try discriminate H.
      rewrite forallb_forall in Hmid. specialize (Hmid _ H).
      discriminate Hmid.
    + destruct (tick_spec cfg e s Hcal Hflag) as (s1 & Hp & Hc).
      destruct (tick_events_control cfg e s Hcal Hflag) as (mid & -> & Hmid).
      pose proof (mc_step _ _ _ _ Hc m) as Hs. rewrite Hena in Hs.
      pose proof (hk_rt _ _ _ _ Hp m) as Hr.
      assert (Hr' : rt m s1 = rt m s)
        by (rewrite Hr; destruct m; reflexivity).
      rewrite Hr' in Hs. inversion Hs as [[H1 H2]].
      repeat split.
      intros [H | [H | [H | H]]]; try discriminate H.
      apply in_app_or in H. destruct H as [H | H].
      { rewrite forallb_forall in Hmid. specialize (Hmid _ H).
        discriminate Hmid. }
      unfold control_events in H.
      repeat (apply in_app_or in H; destruct H as [H | H]).
      * destruct m; [ | destruct (MOTOR_ENA cfg Left); cbn in H;
                        intuition discriminate].
        rewrite Hena in H. destruct H.
      * cbn in H. intuition discriminate.
      * destruct m; [destruct (MOTOR_ENA cfg Right); cbn in H;
                     intuition discriminate | ].
        rewrite Hena in H. destruct H.
      * cbn in H. intuition discriminate.
Qed.

(** X11: in a build without [MOTOR_LEFT_ENA] (or [MOTOR_RIGHT_ENA]) the
    controller of that motor is never stepped: over every run its outputs
    and block states keep their values. *)
Theorem disabled_motor_is_never_stepped
    (m : motor_side) (es : list env) (s : state) :
  MOTOR_ENA cfg m = false ->
  rtY (rt m (run cfg s es)) = rtY (rt m s)
  /\ rtDW (rt m (run cfg s es)) = rtDW (rt m s)
  /\ ~ In (Ev_step m) (run_events cfg s es).
Proof.
  intros Hena. revert s. induction es as [| e es IH]; intros s.
  - rewrite run_events_nil. repeat split. intros [].
  - destruct (disabled_motor_step e s m Hena) as (F1 & F2 & F3).
    destruct (IH (DMA1_Channel1_IRQHandler cfg e s)) as (G1 & G2 & G3).
    cbn [run]. rewrite run_events_cons, G1, G2.
    repeat split; try assumption.
    intros H. apply in_app_or in H. tauto.
Qed.

(** ** The inputs of the controllers *)

(** X12: on a tick that reaches the motor control, the controller of each
    motor is handed the mode request and the target of the main loop, the
    hall bits sampled on this tick, and the three currents measured on this
    tick from this tick's ADC buffer and the frozen offsets; the mechanical
    angle input is left as it was.  The odometry decodes the same hall
    bits. *)
Theorem controller_inputs_of_tick (e : env) (s : state) (m : motor_side) :
  2000 <= offsetcount (cal s) ->
  OverrunFlag s = false ->
  let s' := DMA1_Channel1_IRQHandler cfg e s in
  let u := rtU (rt m s') in
  let a := adc_buffer e in
  z_ctrlModReq u = to_uint8 (ctrlModReq e)
  /\ r_inpTgt u = to_int16 (pwm m e)
  /\ b_hallA u = logical_not (hall_u_pin m e)
  /\ b_hallB u = logical_not (hall_v_pin m e)
  /\ b_hallC u = logical_not (hall_w_pin m e)
  /\ enc_val_previous m s'
     = hall_position (hall_code (b_hallA u) (b_hallB u) (b_hallC u))
  /\ (i_phaAB u = cur_phaAB m s' /\ i_phaBC u = cur_phaBC m s'
      /\ i_DCLink u = cur_DC m s')
  /\ (forall ch,
        current ch (cur s') = to_int16 (offset ch (cal s) - sample ch a))
  /\ a_mechAngle u = a_mechAngle (rtU (rt m s)).
Proof.
  intros Hcal Hflag s' u a. subst s' u a.
  destruct (tick_spec cfg e s Hcal Hflag) as (s1 & Hp & Hc).
  rewrite (mc_rtU _ _ _ _ Hc m), (mc_enc_val_previous _ _ _ _ Hc m),
    (mc_cur _ _ _ _ Hc).
  unfold cur_phaAB, cur_phaBC, cur_DC. rewrite (mc_cur _ _ _ _ Hc).
  pose proof (hk_rt _ _ _ _ Hp m) as Hr.
  assert (Hr' : rt m s1 = rt m s) by (rewrite Hr; destruct m; reflexivity).
  cbn. rewrite Hr', (hk_cur _ _ _ _ Hp).
  repeat split; try reflexivity.
  - unfold cur_phaAB. rewrite (hk_cur _ _ _ _ Hp). reflexivity.
  - unfold cur_phaBC. rewrite (hk_cur _ _ _ _ Hp). reflexivity.
  - unfold cur_DC. rewrite (hk_cur _ _ _ _ Hp). reflexivity.
  - intros ch. destruct ch; reflexivity.
Qed.


(** ** Hall decoding and odometry *)

Lemma position_cases (p : Z) :
  0 <= p <= 5 -> p = 0 \/ p = 1 \/ p = 2 \/ p = 3 \/ p = 4 \/ p = 5.
Proof. lia. Qed.

Lemma calc_encoder_ticks_antisym (p c : Z) :
  0 <= p <= 5 -> 0 <= c <= 5 ->
  calc_encoder_ticks c p = - calc_encoder_ticks p c.
Proof.
  intros Hp Hc. apply position_cases in Hp. apply position_cases in Hc.
  destruct Hp as [-> | [-> | [-> | [-> | [-> | ->]]]]];
    destruct Hc as [-> | [-> | [-> | [-> | [-> | ->]]]]]; reflexivity.
Qed.

(** X13: between two canonical codes, [calc_encoder_ticks] is the signed
    number of steps of the shorter way round the six positions: a move by
    [d] positions, [-2 <= d <= 2], gives [d]; the half turn, whose direction
    is unknown, gives 0; and swapping the two codes negates the result. *)
Theorem calc_encoder_ticks_is_signed_distance (p : Z) :
  0 <= p <= 5 ->
  (forall d, -2 <= d <= 2 -> calc_encoder_ticks p ((p + d) mod 6) = d)
  /\ calc_encoder_ticks p ((p + 3) mod 6) = 0
  /\ (forall c, 0 <= c <= 5 ->
        calc_encoder_ticks c p = - calc_encoder_ticks p c).
Proof.
  intros Hp0. pose proof (position_cases p Hp0) as Hp.
  split; [ | split].
  - intros d Hd.
    assert (Hc : d = -2 \/ d = -1 \/ d = 0 \/ d = 1 \/ d = 2) by lia.
    destruct Hp as [-> | [-> | [-> | [-> | [-> | ->]]]]];
      destruct Hc as [-> | [-> | [-> | [-> | ->]]]]; reflexivity.
  - destruct Hp as [-> | [-> | [-> | [-> | [-> | ->]]]]]; reflexivity.
  - intros c Hc. apply calc_encoder_ticks_antisym; lia.
Qed.

Lemma encoder_range (m : motor_side) (e : env) : 0 <= encoder m e <= 5.
Proof. unfold encoder. apply hall_position_range, hall_code_range. Qed.

(** X14: the odometry is reversible.  Two consecutive ticks that reach the
    motor control, the second of which finds the hall sensors of a motor
    back at the canonical code they had before the first, leave the tick
    counter of that motor where it was. *)
Theorem odometry_round_trip (e1 e2 : env) (s : state) (m : motor_side) :
  2000 <= offsetcount (cal s) ->
  OverrunFlag s = false ->
  0 <= wheel_left_ticks (odo s) < 9000 ->
  0 <= wheel_right_ticks (odo s) < 9000 ->
  0 <= enc_val_previous m s <= 5 ->
  encoder m e2 = enc_val_previous m s ->
  wheel_ticks m
    (DMA1_Channel1_IRQHandler cfg e2 (DMA1_Channel1_IRQHandler cfg e1 s))
  = wheel_ticks m s.
Proof.
  intros Hcal Hflag HL HR Hp Hback.
  set (s1 := DMA1_Channel1_IRQHandler cfg e1 s).
  destruct (odometry_step cfg e1 s Hcal Hflag HL HR) as [HwL HwR].
  destruct (tick_spec cfg e1 s Hcal Hflag) as (sa & Hpa & Hca).
  fold s1 in HwL, HwR, Hca.
  assert (Hcal1 : 2000 <= offsetcount (cal s1)).
  { destruct (tick_housekeeping cfg e1 s Hcal) as (Hc & _).
    fold s1 in Hc. rewrite Hc. exact Hcal. }
  pose proof (mc_OverrunFlag _ _ _ _ Hca) as Hflag1.
  destruct (odometry_invariant_step cfg e1 s HL HR) as [HL1 HR1].
  fold s1 in HL1, HR1.
  destruct (odometry_step cfg e2 s1 Hcal1 Hflag1 HL1 HR1) as [HwL2 HwR2].
  pose proof (mc_enc_val_previous _ _ _ _ Hca m) as Hprev1.
  pose proof (encoder_range m e1) as Hc1.
  pose proof (calc_encoder_ticks_antisym (enc_val_previous m s)
                (encoder m e1) Hp Hc1) as Hanti.
  destruct m; cbn in *.
  - rewrite HwL2, Hprev1, Hback, Hanti, HwL.
    rewrite Zplus_mod_idemp_l.
    replace (wheel_left_ticks (odo s)
             + calc_encoder_ticks (enc_val_previous_left (odo s))
                 (encoder Left e1)
             + - calc_encoder_ticks (enc_val_previous_left (odo s))
                 (encoder Left e1))
      with (wheel_left_ticks (odo s)) by lia.
    apply Z.mod_small. exact HL.
  - rewrite HwR2, Hprev1, Hback, Hanti, HwR.
    rewrite Zminus_mod_idemp_l.
    replace (wheel_right_ticks (odo s)
             - calc_encoder_ticks (enc_val_previous_right (odo s))
                 (encoder Right e1)
             - - calc_encoder_ticks (enc_val_previous_right (odo s))
                 (encoder Right e1))
      with (wheel_right_ticks (odo s)) by lia.
    apply Z.mod_small. exact HR.
Qed.

Lemma enc_val_previous_step (e : env) (s : state) (m : motor_side) :
  0 <= enc_val_previous m s <= 5 ->
  0 <= enc_val_previous m (DMA1_Channel1_IRQHandler cfg e s) <= 5.
Proof.
  intros Hp.
  destruct (Z_lt_ge_dec (offsetcount (cal s)) 2000) as [Hcal | Hcal].
  - destruct (calibrating_tick_frame e s Hcal)
      as (_ & _ & _ & _ & _ & _ & _ & _ & _ & _ & Hodo).
    unfold enc_val_previous in *. rewrite Hodo. exact Hp.
  - apply Z.ge_le in Hcal.
    destruct (OverrunFlag s) eqn:Hflag.
    + pose proof (tick_overrun cfg e s Hcal Hflag) as Hq.
      unfold enc_val_previous in *. rewrite (hk_odo _ _ _ _ Hq). exact Hp.
    + destruct (tick_spec cfg e s Hcal Hflag) as (s1 & _ & Hc).
      rewrite (mc_enc_val_previous _ _ _ _ Hc m). apply encoder_range.
Qed.

(** X15: from reset and for every sequence of inputs, the previous hall
    code kept for each motor is a canonical code in 0..5, so the transition
    table is always read at (previous - current) mod 6 of two valid codes. *)
Theorem enc_val_previous_is_a_position tl tr pin ml mr (es : list env)
    (m : motor_side) :
  0 <= enc_val_previous m (run cfg (initial_state cfg tl tr pin ml mr) es)
    <= 5.
Proof.
  assert (H : forall l s, 0 <= enc_val_previous m s <= 5 ->
                          0 <= enc_val_previous m (run cfg s l) <= 5).
  { induction l as [| e l IH]; intros s Hs; cbn; [exact Hs | ].
    apply IH, enc_val_previous_step, Hs. }
  apply H. destruct m; cbn; lia.
Qed.


(** ** Duties *)

Lemma CCR_written (e : env) (s : state) (m : motor_side) (ph : phase) :
  2000 <= offsetcount (cal s) ->
  OverrunFlag s = false ->
  let s' := DMA1_Channel1_IRQHandler cfg e s in
  CCR ph (TIM m s')
  = CLAMP (DC_pha ph (rtY (rt m s')) + pwm_res ÷ 2) (pwm_margin s')
      (pwm_res - pwm_margin s')
  /\ (pwm_margin s' = 0 \/ pwm_margin s' = 110).
Proof.
  intros Hcal Hflag s'. subst s'.
  destruct (duty_written cfg e s m Hcal Hflag) as ((HU & HV & HW) & _).
  destruct (tick_housekeeping cfg e s Hcal) as (_ & _ & _ & Hm & _).
  split; [destruct ph; assumption | ].
  rewrite Hm. apply pwm_margin_cases.
Qed.

(** X16: the duty written for a raw duty [d] is [d + pwm_res / 2] as long
    as that lies in the window, and the nearer end of the window beyond:
    the upper end [pwm_res - pwm_margin] from [d = pwm_res / 2 - pwm_margin]
    on, the lower end [pwm_margin] down from [d = pwm_margin - pwm_res / 2];
    a raw duty of 0 gives half the period. *)
Theorem duty_is_linear_then_saturates
    (e : env) (s : state) (m : motor_side) (ph : phase) :
  2000 <= offsetcount (cal s) ->
  OverrunFlag s = false ->
  let s' := DMA1_Channel1_IRQHandler cfg e s in
  let d := DC_pha ph (rtY (rt m s')) in
  let mg := pwm_margin s' in
  (mg - pwm_res / 2 <= d <= pwm_res / 2 - mg ->
   CCR ph (TIM m s') = d + pwm_res / 2)
  /\ (pwm_res / 2 - mg <= d -> CCR ph (TIM m s') = pwm_res - mg)
  /\ (d <= mg - pwm_res / 2 -> CCR ph (TIM m s') = mg)
  /\ (d = 0 -> CCR ph (TIM m s') = pwm_res / 2).
Proof.
  intros Hcal Hflag s' d mg.
  destruct (CCR_written e s m ph Hcal Hflag) as (Heq & Hm).
  fold s' in Heq, Hm. fold d mg in Heq, Hm. rewrite Heq.
  change (pwm_res ÷ 2) with 1000. change (pwm_res / 2) with 1000.
  change pwm_res with 2000. unfold CLAMP.
  repeat split; intros Hd;
    destruct (Z.gtb_spec (d + 1000) (2000 - mg));
    destruct (Z.ltb_spec (d + 1000) mg); lia.
Qed.

Lemma CCR_range_step (e : env) (s : state) :
  2000 <= offsetcount (cal s) ->
  OverrunFlag s = false ->
  forall m ph,
    0 <= CCR ph (TIM m (DMA1_Channel1_IRQHandler cfg e s)) <= pwm_res.
Proof.
  intros Hcal Hflag m ph.
  destruct (duty_written cfg e s m Hcal Hflag) as (_ & RU & RV & RW).
  destruct (tick_housekeeping cfg e s Hcal) as (_ & _ & _ & Hm & _).
  pose proof (pwm_margin_cases cfg e) as Hc. rewrite <- Hm in Hc.
  destruct ph; cbn; lia.
Qed.

Lemma CCR_range_run (es : list env) (e : env) (s : state) :
  2000 <= offsetcount (cal s) ->
  OverrunFlag s = false ->
  forall m ph, 0 <= CCR ph (TIM m (run cfg s (e :: es))) <= pwm_res.
Proof.
  revert e s. induction es as [| e' es IH]; intros e s Hcal Hflag m ph.
  - cbn [run]. apply CCR_range_step; assumption.
  - cbn [run]. apply (IH e' (DMA1_Channel1_IRQHandler cfg e s)).
    + destruct (tick_housekeeping cfg e s Hcal) as (Hc & _).
      rewrite Hc. exact Hcal.
    + apply flag_clear_step, Hflag.
Qed.

(** X17: from reset, once the calibration is over, all six compare
    registers hold a value between 0 and the PWM period after every tick,
    whatever the controllers return and whatever the control type. *)
Theorem duty_registers_within_period tl tr pin ml mr (es : list env)
    (m : motor_side) (ph : phase) :
  (2000 < length es)%nat ->
  0 <= CCR ph (TIM m (run cfg (initial_state cfg tl tr pin ml mr) es))
    <= pwm_res.
Proof.
  intros Hlen.
  set (s0 := initial_state cfg tl tr pin ml mr).
  assert (H0 : offsetcount (cal s0) = 0) by reflexivity.
  assert (Hf : length (firstn 2000 es) = 2000%nat)
    by (rewrite length_firstn; lia).
  rewrite <- (firstn_skipn 2000 es). rewrite run_app.
  destruct (calibration_window_run (firstn 2000 es) s0)
    as (Hc & _ & Hov & _); [lia | rewrite Hf; lia | ].
  assert (Hsk : length (skipn 2000 es) = (length es - 2000)%nat)
    by apply length_skipn.
  destruct (skipn 2000 es) as [| e l]; [cbn in Hsk; lia | ].
  apply CCR_range_run.
  - rewrite Hc, Hf. lia.
  - rewrite Hov. reflexivity.
Qed.


(** ** What the interlock leaves alone, and the interrupt acknowledge *)

Lemma MOE_mask_bits (n : Z) :
  0 <= n < 32 -> n <> 15 ->
  Z.testbit (Z.lxor TIM_BDTR_MOE 4294967295) n = true
  /\ Z.testbit TIM_BDTR_MOE n = false.
Proof.
  intros Hn H15.
  assert (Hm : Z.testbit TIM_BDTR_MOE n = false).
  { change TIM_BDTR_MOE with (2 ^ 15). apply Z.pow2_bits_false. lia. }
  split; [ | exact Hm].
  rewrite Z.lxor_spec, Hm.
  change 4294967295 with (Z.ones 32).
  rewrite Z.ones_spec_low by lia. reflexivity.
Qed.

(** X18: a tick changes at most the master output-enable bit of a timer's
    BDTR register: every other bit of the 32-bit register (dead time, break
    and lock configuration) keeps its value, on every path of the handler. *)
Theorem interlock_touches_only_MOE
    (e : env) (s : state) (m : motor_side) (n : Z) :
  0 <= n < 32 -> n <> 15 ->
  Z.testbit (BDTR (TIM m (DMA1_Channel1_IRQHandler cfg e s))) n
  = Z.testbit (BDTR (TIM m s)) n.
Proof.
  intros Hn H15.
  destruct (MOE_mask_bits n Hn H15) as [Hmask Hmoe].
  destruct (Z_lt_ge_dec (offsetcount (cal s)) 2000) as [Hcal | Hcal].
  - destruct (calibrating_tick_frame e s Hcal) as (_ & _ & HL & HR & _).
    destruct m; cbn; rewrite ?HL, ?HR; reflexivity.
  - apply Z.ge_le in Hcal.
    destruct (tick_housekeeping cfg e s Hcal) as (_ & _ & Hb & _).
    rewrite (Hb m).
    match goal with
    | |- context [if ?c then _ else _] => destruct c
    end.
    + rewrite Z.land_spec, Hmask. apply andb_true_r.
    + rewrite Z.lor_spec, Hmoe. apply orb_false_r.
Qed.

(** X19: every tick, the calibrating and the skipped ones included,
    acknowledges the DMA interrupt before anything else, and once. *)
Theorem interrupt_acknowledged_first (e : env) (s : state) :
  exists rest,
    tick_events cfg e s = Ev_IFCR :: rest /\ ~ In Ev_IFCR rest.
Proof.
  assert (Hbz : forall mid, forallb is_buzzer mid = true ->
                            ~ In Ev_IFCR mid).
  { intros mid Hmid Hin. rewrite forallb_forall in Hmid.
    specialize (Hmid _ Hin). discriminate Hmid. }
  destruct (Z_lt_ge_dec (offsetcount (cal s)) 2000) as [Hcal | Hcal].
  - rewrite (tick_events_calibrating cfg e s Hcal).
    exists []. split; [reflexivity | intros []].
  - apply Z.ge_le in Hcal.
    destruct (OverrunFlag s) eqn:Hflag.
    + destruct (tick_events_overrun cfg e s Hcal Hflag) as (mid & -> & Hmid).
      eexists. split; [reflexivity | ].
      intros [H | [H | H]]; try discriminate H.
      exact (Hbz mid Hmid H).
    + destruct (tick_events_control cfg e s Hcal Hflag) as (mid & -> & Hmid).
      eexists. split; [reflexivity | ].
      intros [H | [H | H]]; try discriminate H.
      apply in_app_or in H. destruct H as [H | H];
        [exact (Hbz mid Hmid H) | ].
      apply in_app_or in H.
      destruct H as [H | H];
        [destruct (control_events_actuation cfg Left
                     (DMA1_Channel1_IRQHandler cfg e s)) as [Ha _]
        | destruct (control_events_actuation cfg Right
                      (DMA1_Channel1_IRQHandler cfg e s)) as [Ha _]];
        rewrite forallb_forall in Ha; specialize (Ha _ H); discriminate Ha.
Qed.

End Extensions.

(** ** Edges of [clamp_module_max] *)

(** X20: for a modulus that fits [int16_t] and a value at most one modulus
    away from the range, [clamp_module_max] wraps once: it adds the modulus
    to a negative value, subtracts it from a value at or above it, and
    returns a value of the range unchanged. *)
Theorem clamp_module_max_wraps_once (value max : Z) :
  0 < max <= 16383 ->
  - max <= value < 2 * max ->
  clamp_module_max value max
  = if value <? 0 then value + max
    else if value <? max then value else value - max.
Proof.
  intros Hm Hv.
  rewrite clamp_module_max_eq by (rewrite to_uint16_id; lia).
  rewrite to_int16_id, to_uint16_id by lia.
  destruct (Z.ltb_spec value 0); [ | destruct (Z.ltb_spec value max)].
  - rewrite <- (Z.mod_add value 1 max) by lia.
    replace (value + 1 * max) with (value + max) by lia.
    apply Z.mod_small. lia.
  - apply Z.mod_small. lia.
  - rewrite <- (Z.mod_add value (-1) max) by lia.
    replace (value + -1 * max) with (value - max) by lia.
    apply Z.mod_small. lia.
Qed.

(** X21: the value is an [int16_t] parameter: a counter of 32768 or more,
    although a valid [uint16_t], is first wrapped to its negative
    two's-complement reading, so the result is the residue of
    [value - 65536], not that of [value]. *)
Theorem clamp_module_max_truncates_value (value max : Z) :
  32768 <= value <= 65535 ->
  0 < max <= 65535 ->
  clamp_module_max value max = (value - 65536) mod max.
Proof.
  intros Hv Hm.
  rewrite clamp_module_max_eq by (rewrite to_uint16_id; lia).
  rewrite to_uint16_id by lia. f_equal.
  unfold to_int16.
  rewrite <- (Z.mod_add (value + 32768) (-1) 65536) by lia.
  replace (value + 32768 + -1 * 65536) with (value - 32768) by lia.
  rewrite Z.mod_small; lia.
Qed.
(** * The further properties at work on the reference configuration *)

Lemma calibration_window_is_inert_witness :
  0 <= offsetcount (cal reset)
  /\ offsetcount (cal reset) + Z.of_nat (length [at_limit; position_1])
     <= 2000
  /\ LEFT_TIM (run config reset [at_limit; position_1]) = LEFT_TIM reset.
Proof.
  assert (H0 : 0 <= offsetcount (cal reset)) by (cbn; lia).
  assert (Hn : offsetcount (cal reset)
               + Z.of_nat (length [at_limit; position_1]) <= 2000)
    by (cbn; lia).
  split; [exact H0 | split; [exact Hn | ]].
  apply (calibration_window_is_inert config [at_limit; position_1] reset
           H0 Hn).
Defined.

Lemma calibration_lasts_2000_ticks_witness :
  (2000 <= length (repeat at_limit 2001))%nat
  /\ cal (run config (initial_state config tim0 tim0 false motor0 motor0)
            (repeat at_limit 2001))
     = cal (run config (initial_state config tim0 tim0 false motor0 motor0)
              (firstn 2000 (repeat at_limit 2001))).
Proof.
  assert (H : (2000 <= length (repeat at_limit 2001))%nat)
    by (rewrite repeat_length; lia).
  split; [exact H | ].
  apply (calibration_lasts_2000_ticks config tim0 tim0 false motor0 motor0
           (repeat at_limit 2001)).
  exact H.
Defined.

Lemma calibration_tick_averages_witness :
  offsetcount (cal reset) < 2000
  /\ 0 <= offset Ch_dcl (cal reset) <= 32767
  /\ 0 <= sample Ch_dcl (adc_buffer at_limit) <= 32767
  /\ offset Ch_dcl (cal (DMA1_Channel1_IRQHandler config at_limit reset))
     = (sample Ch_dcl (adc_buffer at_limit) + offset Ch_dcl (cal reset)) / 2.
Proof.
  assert (H1 : offsetcount (cal reset) < 2000) by (cbn; lia).
  assert (H2 : 0 <= offset Ch_dcl (cal reset) <= 32767) by (cbn; lia).
  assert (H3 : 0 <= sample Ch_dcl (adc_buffer at_limit) <= 32767)
    by (cbn; lia).
  repeat (split; [assumption | ]).
  apply (calibration_tick_averages config at_limit reset Ch_dcl H1 H2 H3).
Defined.

Lemma calibration_converges_witness :
  (12 <= length (repeat at_limit 12) <= 2000)%nat
  /\ Forall (fun e => sample Ch_dcl (adc_buffer e) = 1150)
       (repeat at_limit 12)
  /\ 0 <= 1150 <= 4095
  /\ Z.abs (offset Ch_dcl
              (cal (run config
                      (initial_state config tim0 tim0 false motor0 motor0)
                      (repeat at_limit 12))) - 1150) <= 1.
Proof.
  assert (H1 : (12 <= length (repeat at_limit 12) <= 2000)%nat)
    by (cbn; lia).
  assert (H2 : Forall (fun e => sample Ch_dcl (adc_buffer e) = 1150)
                 (repeat at_limit 12))
    by (repeat constructor).
  assert (H3 : 0 <= 1150 <= 4095) by lia.
  repeat (split; [assumption | ]).
  apply (calibration_converges config tim0 tim0 false motor0 motor0
           (repeat at_limit 12) Ch_dcl 1150 H1 H2 H3).
Defined.

Lemma battery_filter_decimated_witness :
  2000 <= offsetcount (cal (calibrated false 0 0))
  /\ buzzerTimer (buz (calibrated false 0 0)) mod 1000 = 0
  /\ batVoltageFixdt
       (bat (DMA1_Channel1_IRQHandler config at_limit (calibrated false 0 0)))
     = filtLowPass32 config (batt1 (adc_buffer at_limit))
         (BAT_FILT_COEF config) (batVoltageFixdt (bat (calibrated false 0 0))).
Proof.
  assert (H1 : 2000 <= offsetcount (cal (calibrated false 0 0)))
    by (cbn; lia).
  assert (H2 : buzzerTimer (buz (calibrated false 0 0)) mod 1000 = 0)
    by reflexivity.
  repeat (split; [assumption | ]).
  destruct (battery_filter_decimated config at_limit (calibrated false 0 0)
              H1) as [H _].
  apply (H H2).
Defined.

Lemma buzzer_silenced_once_witness :
  2000 <= offsetcount (cal sounding)
  /\ Forall (fun e => buzzerFreq e = 0) [buzzing 0 0 3; buzzing 0 0 3]
  /\ filter is_buzzer
       (run_events config sounding [buzzing 0 0 3; buzzing 0 0 3])
     = (if (buzzerPrev (buz sounding) =? 0)
           || (length [buzzing 0 0 3; buzzing 0 0 3] =? 0)%nat
        then [] else [Ev_buzzer false]).
Proof.
  assert (H1 : 2000 <= offsetcount (cal sounding)) by (cbn; lia).
  assert (H2 : Forall (fun e => buzzerFreq e = 0)
                 [buzzing 0 0 3; buzzing 0 0 3])
    by (repeat constructor).
  repeat (split; [assumption | ]).
  apply (buzzer_silenced_once config [buzzing 0 0 3; buzzing 0 0 3] sounding
           H1 H2).
Defined.

Lemma buzzer_toggle_gate_witness :
  2000 <= offsetcount (cal sounding)
  /\ buzzerFreq (buzzing 4 0 3) <> 0
  /\ (to_uint32 (buzzerTimer (buz sounding) + 1) / 5000)
     mod to_uint32 (buzzerPattern (buzzing 4 0 3) + 1) = 0
  /\ buzzerTimer
       (buz (DMA1_Channel1_IRQHandler config (buzzing 4 0 3) sounding))
     = to_uint32 (buzzerTimer (buz sounding) + 1).
Proof.
  assert (H1 : 2000 <= offsetcount (cal sounding)) by (cbn; lia).
  assert (H2 : buzzerFreq (buzzing 4 0 3) <> 0) by (cbn; lia).
  assert (H3 : (to_uint32 (buzzerTimer (buz sounding) + 1) / 5000)
               mod to_uint32 (buzzerPattern (buzzing 4 0 3) + 1) = 0)
    by (vm_compute; reflexivity).
  repeat (split; [assumption | ]).
  destruct (buzzer_toggle_gate config (buzzing 4 0 3) sounding H1 H2 H3)
    as [H _].
  exact H.
Defined.

(** The pin of the sounding buzzer toggles on the tick that brings the
    timer to 8, a multiple of the divisor 4, and not on the next one. *)
Example buzzer_toggles_on_multiples :
  let s1 := DMA1_Channel1_IRQHandler config (buzzing 4 0 3) sounding in
  let s2 := DMA1_Channel1_IRQHandler config (buzzing 4 0 3) s1 in
  BUZZER_PIN (buz sounding) = true
  /\ BUZZER_PIN (buz s1) = false /\ BUZZER_PIN (buz s2) = false
  /\ buzzerTimer (buz s2) = 9.
Proof. vm_compute. repeat split; reflexivity. Qed.


Lemma disabled_motor_is_never_stepped_witness :
  MOTOR_ENA config_right_only Left = false
  /\ rtY (rt Left (run config_right_only (calibrated false 0 0)
                     [at_limit; position_1]))
     = rtY (rt Left (calibrated false 0 0)).
Proof.
  assert (H : MOTOR_ENA config_right_only Left = false) by reflexivity.
  split; [exact H | ].
  apply (disabled_motor_is_never_stepped config_right_only Left
           [at_limit; position_1] (calibrated false 0 0) H).
Defined.

Lemma controller_inputs_of_tick_witness :
  2000 <= offsetcount (cal (calibrated false 0 0))
  /\ OverrunFlag (calibrated false 0 0) = false
  /\ z_ctrlModReq
       (rtU (rt Left (DMA1_Channel1_IRQHandler config at_limit
                        (calibrated false 0 0))))
     = to_uint8 (ctrlModReq at_limit).
Proof.
  assert (H1 : 2000 <= offsetcount (cal (calibrated false 0 0)))
    by (cbn; lia).
  assert (H2 : OverrunFlag (calibrated false 0 0) = false) by reflexivity.
  repeat (split; [assumption | ]).
  apply (controller_inputs_of_tick config at_limit (calibrated false 0 0)
           Left H1 H2).
Defined.

Lemma calc_encoder_ticks_is_signed_distance_witness :
  0 <= 1 <= 5 /\ -2 <= 2 <= 2
  /\ calc_encoder_ticks 1 ((1 + 2) mod 6) = 2.
Proof.
  assert (Hp : 0 <= 1 <= 5) by lia.
  assert (Hd : -2 <= 2 <= 2) by lia.
  split; [exact Hp | split; [exact Hd | ]].
  destruct (calc_encoder_ticks_is_signed_distance 1 Hp) as [H _].
  exact (H 2 Hd).
Defined.

Lemma odometry_round_trip_witness :
  2000 <= offsetcount (cal (calibrated false 0 8999))
  /\ OverrunFlag (calibrated false 0 8999) = false
  /\ 0 <= wheel_left_ticks (odo (calibrated false 0 8999)) < 9000
  /\ 0 <= wheel_right_ticks (odo (calibrated false 0 8999)) < 9000
  /\ 0 <= enc_val_previous Left (calibrated false 0 8999) <= 5
  /\ encoder Left at_limit = enc_val_previous Left (calibrated false 0 8999)
  /\ wheel_ticks Left
       (DMA1_Channel1_IRQHandler config at_limit
          (DMA1_Channel1_IRQHandler config position_1
             (calibrated false 0 8999)))
     = wheel_ticks Left (calibrated false 0 8999).
Proof.
  assert (H1 : 2000 <= offsetcount (cal (calibrated false 0 8999)))
    by (cbn; lia).
  assert (H2 : OverrunFlag (calibrated false 0 8999) = false) by reflexivity.
  assert (H3 : 0 <= wheel_left_ticks (odo (calibrated false 0 8999)) < 9000)
    by (cbn; lia).
  assert (H4 : 0 <= wheel_right_ticks (odo (calibrated false 0 8999)) < 9000)
    by (cbn; lia).
  assert (H5 : 0 <= enc_val_previous Left (calibrated false 0 8999) <= 5)
    by (cbn; lia).
  assert (H6 : encoder Left at_limit
               = enc_val_previous Left (calibrated false 0 8999))
    by (vm_compute; reflexivity).
  repeat (split; [assumption | ]).
  exact (odometry_round_trip config position_1 at_limit
           (calibrated false 0 8999) Left H1 H2 H3 H4 H5 H6).
Defined.

Lemma duty_is_linear_then_saturates_witness :
  2000 <= offsetcount (cal (calibrated false 0 0))
  /\ OverrunFlag (calibrated false 0 0) = false
  /\ (DC_pha PhaseU
        (rtY (rt Left (DMA1_Channel1_IRQHandler config at_limit
                         (calibrated false 0 0)))) = 0 ->
      CCR PhaseU (TIM Left (DMA1_Channel1_IRQHandler config at_limit
                              (calibrated false 0 0)))
      = pwm_res / 2).
Proof.
  assert (H1 : 2000 <= offsetcount (cal (calibrated false 0 0)))
    by (cbn; lia).
  assert (H2 : OverrunFlag (calibrated false 0 0) = false) by reflexivity.
  repeat (split; [assumption | ]).
  destruct (duty_is_linear_then_saturates config at_limit
              (calibrated false 0 0) Left PhaseU H1 H2) as (_ & _ & _ & H).
  exact H.
Defined.

(** A target of 300 gives the duties 1300 and 700; the raw duty 600 of the
    third phase stays below the upper end 1890 of the FOC window. *)
Example duty_of_reference_tick :
  let s' := DMA1_Channel1_IRQHandler config at_limit (calibrated false 0 0) in
  TIM_U (LEFT_TIM s') = 1300 /\ TIM_V (LEFT_TIM s') = 700
  /\ TIM_W (LEFT_TIM s') = 1600 /\ pwm_margin s' = 110.
Proof. vm_compute. repeat split; reflexivity. Qed.

Lemma duty_registers_within_period_witness :
  (2000 < length (repeat at_limit 2001))%nat
  /\ 0 <= CCR PhaseU
            (TIM Left
               (run config
                  (initial_state config tim0 tim0 false motor0 motor0)
                  (repeat at_limit 2001)))
       <= pwm_res.
Proof.
  assert (H : (2000 < length (repeat at_limit 2001))%nat)
    by (rewrite repeat_length; lia).
  split; [exact H | ].
  exact (duty_registers_within_period config tim0 tim0 false motor0 motor0
           (repeat at_limit 2001) Left PhaseU H).
Defined.

Lemma interlock_touches_only_MOE_witness :
  0 <= 3 < 32 /\ 3 <> 15
  /\ Z.testbit
       (BDTR (TIM Left (DMA1_Channel1_IRQHandler config at_limit
                          (calibrated false 0 0)))) 3
     = Z.testbit (BDTR (TIM Left (calibrated false 0 0))) 3.
Proof.
  assert (H1 : 0 <= 3 < 32) by lia.
  assert (H2 : 3 <> 15) by lia.
  split; [exact H1 | split; [exact H2 | ]].
  exact (interlock_touches_only_MOE config at_limit (calibrated false 0 0)
           Left 3 H1 H2).
Defined.

Lemma clamp_module_max_wraps_once_witness :
  0 < 9000 <= 16383 /\ - 9000 <= -1 < 2 * 9000
  /\ clamp_module_max (-1) 9000
     = (if -1 <? 0 then -1 + 9000
        else if -1 <? 9000 then -1 else -1 - 9000).
Proof.
  assert (H1 : 0 < 9000 <= 16383) by lia.
  assert (H2 : - 9000 <= -1 < 2 * 9000) by lia.
  split; [exact H1 | split; [exact H2 | ]].
  exact (clamp_module_max_wraps_once (-1) 9000 H1 H2).
Defined.

Lemma clamp_module_max_truncates_value_witness :
  32768 <= 40000 <= 65535 /\ 0 < 50000 <= 65535
  /\ clamp_module_max 40000 50000 = (40000 - 65536) mod 50000.
Proof.
  assert (H1 : 32768 <= 40000 <= 65535) by lia.
  assert (H2 : 0 < 50000 <= 65535) by lia.
  split; [exact H1 | split; [exact H2 | ]].
  exact (clamp_module_max_truncates_value 40000 50000 H1 H2).
Defined.

(** With a modulus of 50000 a counter at 40000 would come back as 24464. *)
Example clamp_module_max_beyond_int16 :
  clamp_module_max 40000 50000 = 24464 /\ 40000 mod 50000 = 40000.
Proof. vm_compute. split; reflexivity. Qed.
